(** * charmlibs.pathops: ensure_contents, remove_path and the error mapper

    A shallow embedding of
      - [pathops/_functions.py]  (ensure_contents, _as_bytes, remove_path,
        _remove_container_path, _remove_pathlib_path),
      - [pathops/_errors.py]     (the mapping from Pebble errors to Python
        exceptions),
      - [pathops/_types.py]      (the PathProtocol that LocalPath and
        ContainerPath implement),
      - [.github/get-packages.py] (the packages a change touches),
    followed by the properties the specification states about them.

    Python functions that may raise return a [Result]; functions that act on
    a filesystem are state transformers [W -> Result A * W].  Queries that
    only read the filesystem are functions [W -> Result A]. *)

From stdpp Require Import gmap strings list sorting.
From Stdlib Require Import ZArith Strings.Byte Strings.Ascii Lia.

Local Open Scope string_scope.
Local Open Scope Z_scope.

(* ===================================================================== *)
(** * Python values                                                       *)
(* ===================================================================== *)

(** [bytes] objects. *)
Abbreviation bytes := (list byte).

#[global] Instance byte_eq_decision : EqDecision byte := Byte.byte_eq_dec.

(** The contents of a [str] used as file contents: a sequence of Unicode
    code points.  (Paths, messages and names, which the code only compares
    and concatenates, are kept as [string].) *)
Abbreviation str := (list Z).

(** Python's [needle in hay] on strings. *)
Fixpoint contains (needle hay : string) : bool :=
  String.prefix needle hay ||
  match hay with
  | EmptyString => false
  | String _ rest => contains needle rest
  end.

(** The part of ops.pebble the package uses. *)
Module pebble.

(** [pebble.Error] and the subclasses a client call can raise. *)
Inductive Error : Type :=
| PathError (kind message : string)
| APIError (code : Z) (status message : string)
| ConnectionError (message : string)
| ProtocolError (message : string)
| TimeoutError (message : string).

Inductive FileType : Type :=
| FILE | DIRECTORY | SYMLINK | SOCKET | NAMED_PIPE | DEVICE | UNKNOWN.

(** [pebble.FileInfo], without the numeric ids and the modification time,
    which the package never compares. *)
Record FileInfo : Type := mkFileInfo {
  path : string;
  name : string;
  type : FileType;
  size : option Z;
  permissions : Z;
  user : option string;
  group : option string
}.

End pebble.

#[global] Instance pebble_error_eq_decision : EqDecision pebble.Error.
Proof. solve_decision. Defined.

(** The exceptions that cross the package boundary.  The [cause] of an
    exception is what [raise ... from cause] attaches to it. *)
Inductive Exception : Type :=
| FileExistsError (errno : Z) (strerror filename : string) (cause : option pebble.Error)
| FileNotFoundError (errno : Z) (strerror filename : string) (cause : option pebble.Error)
| IsADirectoryError (errno : Z) (strerror filename : string) (cause : option pebble.Error)
| NotADirectoryError (errno : Z) (strerror filename : string) (cause : option pebble.Error)
| PermissionError (errno : Z) (strerror filename : string) (cause : option pebble.Error)
| OSError (errno : Z) (strerror filename : string) (cause : option pebble.Error)
| LookupError (msg : string) (cause : option pebble.Error)
| UnicodeEncodeError (codepoint : Z)
| ValueError (msg : string)
| OverflowError (msg : string)
| PebbleError (e : pebble.Error).

#[global] Instance exception_eq_decision : EqDecision Exception.
Proof. solve_decision. Defined.

(** The outcome of a call: a returned value or a raised exception. *)
Inductive Result (A : Type) : Type :=
| Return (a : A)
| Raise (e : Exception).
Arguments Return {A} a.
Arguments Raise {A} e.

(** [isinstance(e, FileNotFoundError)] *)
Definition is_FileNotFoundError (e : Exception) : bool :=
  match e with
  | FileNotFoundError _ _ _ _ => true
  | _ => false
  end.

(** The exception is one of the shared kinds, raised [from] the protocol
    error [e]. *)
Definition raised_from (x : Exception) (e : pebble.Error) : Prop :=
  match x with
  | FileExistsError _ _ _ c | FileNotFoundError _ _ _ c | IsADirectoryError _ _ _ c
  | NotADirectoryError _ _ _ c | PermissionError _ _ _ c | OSError _ _ _ c
  | LookupError _ c => c = Some e
  | UnicodeEncodeError _ | ValueError _ | OverflowError _ | PebbleError _ => False
  end.

(** A raw protocol error. *)
Definition is_raw (x : Exception) : Prop :=
  match x with
  | PebbleError _ => True
  | _ => False
  end.

(* ===================================================================== *)
(** * _errors.py                                                          *)
(* ===================================================================== *)

Module errno.
Definition EPERM : Z := 1.
Definition ENOENT : Z := 2.
Definition ENXIO : Z := 6.
Definition EBUSY : Z := 16.
Definition EEXIST : Z := 17.
Definition ENOTDIR : Z := 20.
Definition EISDIR : Z := 21.
Definition ENOTEMPTY : Z := 39.
Definition ELOOP : Z := 40.
End errno.

(** [os.strerror] on the codes above. *)
Definition strerror (code : Z) : string :=
  if code =? errno.EPERM then "Operation not permitted"
  else if code =? errno.ENOENT then "No such file or directory"
  else if code =? errno.ENXIO then "No such device or address"
  else if code =? errno.EBUSY then "Device or resource busy"
  else if code =? errno.EEXIST then "File exists"
  else if code =? errno.ENOTDIR then "Not a directory"
  else if code =? errno.EISDIR then "Is a directory"
  else if code =? errno.ENOTEMPTY then "Directory not empty"
  else if code =? errno.ELOOP then "Too many levels of symbolic links"
  else "Unknown error".

Module _errors.

Definition raise_file_exists {A} (msg : string) (from_ : option pebble.Error) : Result A :=
  Raise (FileExistsError errno.EEXIST (strerror errno.EEXIST) msg from_).

Definition raise_if_matches_file_exists (error : pebble.Error) (msg : string) : Result unit :=
  match error with
  | pebble.PathError kind message =>
      if String.eqb kind "generic-file-error" && contains "file exists" message
      then raise_file_exists msg (Some error)
      else Return tt
  | _ => Return tt
  end.

Definition raise_file_not_found {A} (msg : string) (from_ : option pebble.Error) : Result A :=
  Raise (FileNotFoundError errno.ENOENT (strerror errno.ENOENT) msg from_).

Definition raise_if_matches_file_not_found (error : pebble.Error) (msg : string) : Result unit :=
  if match error with
     | pebble.APIError code _ _ => code =? 404
     | pebble.PathError kind _ => String.eqb kind "not-found"
     | _ => false
     end
  then raise_file_not_found msg (Some error)
  else Return tt.

Definition raise_if_matches_is_a_directory (error : pebble.Error) (msg : string) : Result unit :=
  match error with
  | pebble.PathError kind message =>
      if String.eqb kind "generic-file-error" && contains "can only read a regular file" message
      then Raise (IsADirectoryError errno.EISDIR (strerror errno.EISDIR) msg (Some error))
      else Return tt
  | _ => Return tt
  end.

Definition raise_if_matches_lookup (error : pebble.Error) (msg : string) : Result unit :=
  match error with
  | pebble.PathError kind message =>
      if String.eqb kind "generic-file-error" && contains "cannot look up user and group" message
      then Raise (LookupError msg (Some error))
      else Return tt
  | _ => Return tt
  end.

Definition matches_not_a_directory (error : pebble.Error) : bool :=
  match error with
  | pebble.PathError kind message =>
      String.eqb kind "generic-file-error" && contains "not a directory" message
  | _ => false
  end.

Definition raise_not_a_directory {A} (msg : string) (from_ : option pebble.Error) : Result A :=
  Raise (NotADirectoryError errno.ENOTDIR (strerror errno.ENOTDIR) msg from_).

Module Permission.
Definition matches (error : pebble.Error) : bool :=
  match error with
  | pebble.PathError kind _ => String.eqb kind "permission-denied"
  | _ => false
  end.

Definition exception (msg : string) : Exception :=
  PermissionError errno.EPERM (strerror errno.EPERM) msg None.
End Permission.

(** Modelled from the spec: [raise_if_matches_permission], which
    _remove_container_path calls, is not in this _errors.py; it is
    [Permission.matches] and [Permission.exception] above, raised from the
    protocol error as its siblings do. *)
Definition raise_if_matches_permission (error : pebble.Error) (msg : string) : Result unit :=
  if Permission.matches error
  then Raise (PermissionError errno.EPERM (strerror errno.EPERM) msg (Some error))
  else Return tt.

(** Modelled from the spec: [raise_if_matches_directory_not_empty], which
    _remove_container_path calls, is not in this _errors.py.  The
    directory-not-empty kind is recognised like the other sub-cases of the
    generic-file-error category, by a substring of the message. *)
Definition raise_if_matches_directory_not_empty (error : pebble.Error) (msg : string)
    : Result unit :=
  match error with
  | pebble.PathError kind message =>
      if String.eqb kind "generic-file-error" && contains "directory not empty" message
      then Raise (OSError errno.ENOTEMPTY (strerror errno.ENOTEMPTY) msg (Some error))
      else Return tt
  | _ => Return tt
  end.

Module TooManyLevelsOfSymbolicLinks.
Definition matches (error : pebble.Error) : bool :=
  match error with
  | pebble.APIError code _ message =>
      (code =? 400) && contains "too many levels of symbolic links" message
  | _ => false
  end.

Definition exception (msg : string) : Exception :=
  OSError errno.ELOOP (strerror errno.ELOOP) msg None.

Definition matches_exception (exception : Exception) : bool :=
  match exception with
  | FileExistsError e _ _ _ | FileNotFoundError e _ _ _ | IsADirectoryError e _ _ _
  | NotADirectoryError e _ _ _ | PermissionError e _ _ _ | OSError e _ _ _ =>
      e =? errno.ELOOP
  | _ => false
  end.
End TooManyLevelsOfSymbolicLinks.

End _errors.

(* ===================================================================== *)
(** * Calls that raise and act on a filesystem                            *)
(* ===================================================================== *)

(** A call in a world [W] returns or raises, and leaves a world behind. *)
Definition M (W A : Type) : Type := W -> Result A * W.

Definition ret {W A} (a : A) : M W A := fun w => (Return a, w).

Definition raise {W A} (e : Exception) : M W A := fun w => (Raise e, w).

Definition bind {W A B} (m : M W A) (k : A -> M W B) : M W B :=
  fun w =>
    match m w with
    | (Return a, w') => k a w'
    | (Raise e, w') => (Raise e, w')
    end.

Notation "x <- m ;; k" := (bind m (fun x => k))
  (at level 100, m at next level, right associativity).

(** A pure computation that may raise. *)
Definition lift {W A} (r : Result A) : M W A := fun w => (r, w).

(** A call that only reads the world. *)
Definition query {W A} (q : W -> Result A) : M W A := fun w => (q w, w).

(** [try: m] with the outcome handed to the [except]/[else] clauses. *)
Definition try_ {W A} (m : M W A) : M W (Result A) :=
  fun w => let '(r, w') := m w in (Return r, w').

(* ===================================================================== *)
(** * str.encode()                                                        *)
(* ===================================================================== *)

Definition byte_of_Z (z : Z) : byte :=
  match Byte.of_N (Z.to_N (z mod 256)) with
  | Some b => b
  | None => Byte.x00
  end.

(** UTF-8 bytes of one code point; lone surrogates cannot be encoded. *)
Definition encode_codepoint (c : Z) : Result bytes :=
  if (c <? 0) || (1114111 <? c) then Raise (UnicodeEncodeError c)
  else if c <? 128 then Return [byte_of_Z c]
  else if c <? 2048 then
    Return [byte_of_Z (Z.lor 192 (Z.shiftr c 6));
            byte_of_Z (Z.lor 128 (Z.land c 63))]
  else if (55296 <=? c) && (c <=? 57343) then Raise (UnicodeEncodeError c)
  else if c <? 65536 then
    Return [byte_of_Z (Z.lor 224 (Z.shiftr c 12));
            byte_of_Z (Z.lor 128 (Z.land (Z.shiftr c 6) 63));
            byte_of_Z (Z.lor 128 (Z.land c 63))]
  else
    Return [byte_of_Z (Z.lor 240 (Z.shiftr c 18));
            byte_of_Z (Z.lor 128 (Z.land (Z.shiftr c 12) 63));
            byte_of_Z (Z.lor 128 (Z.land (Z.shiftr c 6) 63));
            byte_of_Z (Z.lor 128 (Z.land c 63))].

(** [s.encode()] with the default encoding, UTF-8. *)
Fixpoint encode (s : str) : Result bytes :=
  match s with
  | [] => Return []
  | c :: rest =>
      match encode_codepoint c with
      | Raise e => Raise e
      | Return b =>
          match encode rest with
          | Raise e => Raise e
          | Return bs => Return (b ++ bs)%list
          end
      end
  end.

(* ===================================================================== *)
(** * _types.py: PathProtocol                                             *)
(* ===================================================================== *)

(** Modelled from the spec: _constants.py is not among the sources.  The
    docstrings of _types.py give its values: files are written with 0o644
    and directories made with 0o755 by default. *)
Module _constants.
Definition DEFAULT_WRITE_MODE : Z := 420.
Definition DEFAULT_MKDIR_MODE : Z := 493.
End _constants.

(** The methods of PathProtocol that the functions of _functions.py call,
    for paths [P] on filesystems [W].  [fileinfo] stands for the two
    functions of _fileinfo that [_get_fileinfo] chooses between. *)
Class PathProtocol (P W : Type) : Type := {
  parent : P -> P;
  fileinfo : P -> W -> Result pebble.FileInfo;
  read_bytes : P -> W -> Result bytes;
  mkdir : P -> Z -> bool -> bool -> option string -> option string -> M W unit;
  write_bytes : P -> bytes -> Z -> option string -> option string -> M W Z
}.

(* ===================================================================== *)
(** * _functions.py: ensure_contents                                      *)
(* ===================================================================== *)

(** [source: bytes | str | BinaryIO | TextIO].  An IO object is given by
    what its [read()] returns. *)
Inductive Source : Type :=
| Bytes (b : bytes)
| Str (s : str)
| IO (read : Source).

Fixpoint _as_bytes (source : Source) : Result bytes :=
  match source with
  | Bytes b => Return b
  | Str s => encode s
  | IO read => _as_bytes read
  end.

(** [desired is None or actual == desired] *)
Definition none_or_equal (desired actual : option string) : bool :=
  match desired with
  | None => true
  | Some d => bool_decide (actual = Some d)
  end.

(** The comparisons of the metadata:
    [(info.permissions == mode) and (user is None or info.user == user)
     and (group is None or info.group == group)] *)
Definition metadata_matches (info : pebble.FileInfo) (mode : Z) (user group : option string)
    : bool :=
  (pebble.permissions info =? mode)
  && none_or_equal user (pebble.user info)
  && none_or_equal group (pebble.group info).

Section EnsureContents.
Context {P W : Type} `{PathProtocol P W}.

Definition _get_fileinfo (path : P) : W -> Result pebble.FileInfo :=
  fileinfo path.

(** The steps after the check: make the parents, write, report a change. *)
Definition write_contents (path : P) (source : bytes) (mode : Z)
    (user group : option string) : M W bool :=
  _ <- mkdir (parent path) _constants.DEFAULT_MKDIR_MODE true true None None ;;
  _ <- write_bytes path source mode user group ;;
  ret true.

(** The [if] of the [else] clause; [read_bytes] is called only when the
    three comparisons before it hold. *)
Definition already_matches (path : P) (info : pebble.FileInfo) (source : bytes)
    (mode : Z) (user group : option string) : M W bool :=
  if metadata_matches info mode user group
  then data <- query (read_bytes path) ;; ret (bool_decide (data = source))
  else ret false.

Definition ensure_contents (path : P) (source : Source) (mode : Z)
    (user group : option string) : M W bool :=
  source <- lift (_as_bytes source) ;;
  info <- try_ (query (_get_fileinfo path)) ;;
  unchanged <-
    match info with
    | Raise e => if is_FileNotFoundError e then ret false else raise e
    | Return info => already_matches path info source mode user group
    end ;;
  if (unchanged : bool) then ret false
  else write_contents path source mode user group.

End EnsureContents.

(* ===================================================================== *)
(** * The local backend                                                   *)
(* ===================================================================== *)

(** Modelled from the spec: LocalPath, _fileinfo.from_pathlib_path and the
    pathlib and shutil calls they rest on are not among the sources.  The
    local filesystem is a finite map from absolute paths (the list of their
    components; [[]] is the top directory) to nodes carrying the metadata of
    the spec's file metadata record.  The process may do anything its
    filesystem allows (no permission checks), and there are no symbolic
    links. *)
Module Local.

Abbreviation path := (list string).

Record Meta : Type := mkMeta {
  permissions : Z;
  user : string;
  group : string
}.

Inductive Node : Type :=
| File (meta : Meta) (data : bytes)
| Directory (meta : Meta)
| Socket (meta : Meta).

Record FS : Type := mkFS {
  nodes : gmap (list string) Node;
  users : gset string;          (* the user names that can be looked up *)
  groups : gset string;         (* the group names that can be looked up *)
  process_user : string;        (* the owner of what the process creates *)
  process_group : string;
  umask : Z                     (* the bits cleared in the mode of a created file *)
}.

Definition with_nodes (fs : FS) (n : gmap (list string) Node) : FS :=
  mkFS n (users fs) (groups fs) (process_user fs) (process_group fs) (umask fs).

Definition meta_of (n : Node) : Meta :=
  match n with
  | File m _ | Directory m | Socket m => m
  end.

Definition is_directory (n : Node) : bool :=
  match n with
  | Directory _ => true
  | _ => false
  end.

(** [str(path)] *)
Definition as_posix (p : path) : string :=
  match p with
  | [] => "/"
  | _ => String.concat "" (map (fun c => "/" +:+ c) p)
  end.

(** [path.name] *)
Definition name (p : path) : string := List.last p "".

(** [path.parent]; the top directory is its own parent. *)
Definition parent (p : path) : path := removelast p.

Definition not_found {A} (p : path) : Result A :=
  Raise (FileNotFoundError errno.ENOENT (strerror errno.ENOENT) (as_posix p) None).
Definition not_a_directory {A} (p : path) : Result A :=
  Raise (NotADirectoryError errno.ENOTDIR (strerror errno.ENOTDIR) (as_posix p) None).
Definition is_a_directory {A} (p : path) : Result A :=
  Raise (IsADirectoryError errno.EISDIR (strerror errno.EISDIR) (as_posix p) None).
Definition file_exists {A} (p : path) : Result A :=
  Raise (FileExistsError errno.EEXIST (strerror errno.EEXIST) (as_posix p) None).
Definition not_empty {A} (p : path) : Result A :=
  Raise (OSError errno.ENOTEMPTY (strerror errno.ENOTEMPTY) (as_posix p) None).
Definition no_device {A} (p : path) : Result A :=
  Raise (OSError errno.ENXIO (strerror errno.ENXIO) (as_posix p) None).
Definition device_busy {A} (p : path) : Result A :=
  Raise (OSError errno.EBUSY (strerror errno.EBUSY) (as_posix p) None).

(** Path resolution from [cur] through the components [rest]: every
    component on the way must be a directory. *)
Fixpoint resolve (n : gmap (list string) Node) (target cur : path) (rest : list string)
    : Result Node :=
  match n !! cur with
  | None => not_found target
  | Some node =>
      match rest with
      | [] => Return node
      | c :: rest' =>
          if is_directory node then resolve n target (cur ++ [c])%list rest'
          else not_a_directory target
      end
  end.

(** [os.stat(path)] *)
Definition stat (p : path) (fs : FS) : Result Node := resolve (nodes fs) p [] p.

(** [path.exists()]: not-found and not-a-directory both mean no. *)
Definition exists_ (p : path) (fs : FS) : bool :=
  match stat p fs with
  | Return _ => true
  | Raise _ => false
  end.

(** [path.is_dir()] *)
Definition is_dir (p : path) (fs : FS) : bool :=
  match stat p fs with
  | Return node => is_directory node
  | Raise _ => false
  end.

(** [k] is an entry of the directory [p]. *)
Definition entry_of (p k : path) : Prop :=
  p `prefix_of` k /\ length k = S (length p).

#[global] Instance entry_of_dec p k : Decision (entry_of p k).
Proof. unfold entry_of. apply _. Defined.

(** The directory [p] has no entries. *)
Definition empty_dir (p : path) (n : gmap (list string) Node) : Prop :=
  map_Forall (fun k _ => ~ entry_of p k) n.

(** [path.unlink()] *)
Definition unlink (p : path) : M FS unit :=
  fun fs =>
    match stat p fs with
    | Raise e => (Raise e, fs)
    | Return (Directory _) => (is_a_directory p, fs)
    | Return _ => (Return tt, with_nodes fs (delete p (nodes fs)))
    end.

(** [path.rmdir()].  The top directory is in use, whatever it holds, and
    cannot be removed. *)
Definition rmdir (p : path) : M FS unit :=
  fun fs =>
    match stat p fs with
    | Raise e => (Raise e, fs)
    | Return (Directory _) =>
        match p with
        | [] => (device_busy p, fs)
        | _ =>
            if decide (empty_dir p (nodes fs))
            then (Return tt, with_nodes fs (delete p (nodes fs)))
            else (not_empty p, fs)
        end
    | Return _ => (not_a_directory p, fs)
    end.

(** [shutil.rmtree(path)]: everything below the directory is removed, then
    the directory itself is, by its [rmdir].  On the top directory that
    last step fails after all below it is gone. *)
Definition rmtree (p : path) : M FS unit :=
  fun fs =>
    match stat p fs with
    | Raise e => (Raise e, fs)
    | Return (Directory _) =>
        match p with
        | [] =>
            (device_busy p,
             with_nodes fs (filter (fun kv => kv.1 = []) (nodes fs)))
        | _ =>
            (Return tt,
             with_nodes fs (filter (fun kv => ~ p `prefix_of` kv.1) (nodes fs)))
        end
    | Return _ => (not_a_directory p, fs)
    end.

(** The kind and the size that [_fileinfo.from_pathlib_path] reports. *)
Definition file_type (n : Node) : pebble.FileType :=
  match n with
  | File _ _ => pebble.FILE
  | Directory _ => pebble.DIRECTORY
  | Socket _ => pebble.SOCKET
  end.

Definition file_size (n : Node) : option Z :=
  match n with
  | File _ data => Some (Z.of_nat (length data))
  | _ => None
  end.

(** Modelled from the spec: [_fileinfo.from_pathlib_path], the metadata
    query of the local backend: the normalized file-info record of what
    [stat] finds. *)
Definition from_pathlib_path (p : path) (fs : FS) : Result pebble.FileInfo :=
  match stat p fs with
  | Raise e => Raise e
  | Return node =>
      Return (pebble.mkFileInfo (as_posix p) (name p) (file_type node) (file_size node)
                (permissions (meta_of node))
                (Some (user (meta_of node))) (Some (group (meta_of node))))
  end.

(** Modelled from the spec: [LocalPath.read_bytes()], the full contents of
    a regular file. *)
Definition read_bytes (p : path) (fs : FS) : Result bytes :=
  match stat p fs with
  | Raise e => Raise e
  | Return (File _ data) => Return data
  | Return (Directory _) => is_a_directory p
  | Return (Socket _) => no_device p
  end.

(** The user and the group, when given, must be known. *)
Definition lookup_user_group (user group : option string) (fs : FS) : Result unit :=
  match user with
  | Some u =>
      if decide (u ∈ users fs) then
        match group with
        | Some g => if decide (g ∈ groups fs) then Return tt
                    else Raise (LookupError ("Unknown group: " +:+ g) None)
        | None => Return tt
        end
      else Raise (LookupError ("Unknown user: " +:+ u) None)
  | None =>
      match group with
      | Some g => if decide (g ∈ groups fs) then Return tt
                  else Raise (LookupError ("Unknown group: " +:+ g) None)
      | None => Return tt
      end
  end.

(** The metadata of what is written or made: the requested mode, and the
    requested owner where one is given, else the owner [keep]. *)
Definition new_meta (mode : Z) (user group : option string) (keep_user keep_group : string)
    : Meta :=
  mkMeta mode (default keep_user user) (default keep_group group).

(** The permission bits [chmod] sets for [mode]: the low twelve bits.  A
    mode that does not fit a C int is refused. *)
Definition chmod_bits (mode : Z) : Result Z :=
  if (mode <? -2147483648) || (2147483647 <? mode)
  then Raise (OverflowError "Python int too large to convert to C int")
  else Return (Z.land mode 4095).

(** The file at [p] once the data is written and the owner set, [before]
    being its metadata as it was or as it was created: the mode is set
    last, and a mode that is refused leaves the file as written. *)
Definition written (p : path) (data : bytes) (mode : Z) (user group : option string)
    (before : Meta) : M FS Z :=
  fun fs =>
    match chmod_bits mode with
    | Return bits =>
        (Return (Z.of_nat (length data)),
         with_nodes fs
           (<[p := File (new_meta bits user group (Local.user before) (Local.group before))
                     data]> (nodes fs)))
    | Raise e =>
        (Raise e,
         with_nodes fs
           (<[p := File (new_meta (permissions before) user group
                           (Local.user before) (Local.group before)) data]> (nodes fs)))
    end.

(** Modelled from the spec:
    [LocalPath.write_bytes(data, mode=mode, user=user, group=group)]:
    create or overwrite, setting the permission bits and, where given, the
    owner and the group; returns the number of bytes written.  A file that
    is created starts with the mode 0o666 less the umask. *)
Definition write_bytes (p : path) (data : bytes) (mode : Z) (user group : option string)
    : M FS Z :=
  fun fs =>
    match lookup_user_group user group fs with
    | Raise e => (Raise e, fs)
    | Return _ =>
        match stat p fs with
        | Return (File old _) => written p data mode user group old fs
        | Return (Directory _) => (is_a_directory p, fs)
        | Return (Socket _) => (no_device p, fs)
        | Raise e =>
            if is_FileNotFoundError e then
              match stat (parent p) fs with
              | Return (Directory _) =>
                  written p data mode user group
                    (mkMeta (Z.ldiff 438 (umask fs)) (process_user fs) (process_group fs)) fs
              | Return _ => (not_a_directory p, fs)
              | Raise e' => (Raise e', fs)
              end
            else (Raise e, fs)
        end
    end.

(** Making the directories from [cur] down through [rest].  The last
    component is made with [mode] and the given owner; those before it,
    when [parents] allows making them, with the default mode. *)
Fixpoint make_dirs (target cur : path) (rest : list string) (mode : Z)
    (parents exist_ok : bool) (user group : option string) : M FS unit :=
  fun fs =>
    match nodes fs !! cur with
    | None => (not_found target, fs)
    | Some node =>
        if is_directory node then
          match rest with
          | [] => (Return tt, fs)
          | c :: rest' =>
              let child := (cur ++ [c])%list in
              match nodes fs !! child, rest' with
              | Some (Directory _), [] =>
                  if exist_ok then (Return tt, fs) else (file_exists target, fs)
              | Some _, [] => (file_exists target, fs)
              | Some _, _ =>
                  make_dirs target child rest' mode parents exist_ok user group fs
              | None, [] =>
                  (Return tt,
                   with_nodes fs
                     (<[child := Directory
                                   (new_meta mode user group (process_user fs) (process_group fs))]>
                        (nodes fs)))
              | None, _ =>
                  if parents then
                    make_dirs target child rest' mode parents exist_ok user group
                      (with_nodes fs
                         (<[child := Directory
                                       (mkMeta _constants.DEFAULT_MKDIR_MODE
                                          (process_user fs) (process_group fs))]>
                            (nodes fs)))
                  else (not_found target, fs)
              end
          end
        else (not_a_directory target, fs)
    end.

(** Modelled from the spec:
    [LocalPath.mkdir(mode, parents, exist_ok, user=user, group=group)]. *)
Definition mkdir (p : path) (mode : Z) (parents exist_ok : bool) (user group : option string)
    : M FS unit :=
  fun fs =>
    match lookup_user_group user group fs with
    | Raise e => (Raise e, fs)
    | Return _ =>
        match p with
        | [] => if exist_ok && is_dir [] fs then (Return tt, fs) else (file_exists p, fs)
        | _ => make_dirs p [] p mode parents exist_ok user group fs
        end
    end.

End Local.

#[global] Instance LocalPath : PathProtocol Local.path Local.FS := {
  parent := Local.parent;
  fileinfo := Local.from_pathlib_path;
  read_bytes := Local.read_bytes;
  mkdir := Local.mkdir;
  write_bytes := Local.write_bytes
}.

(* ===================================================================== *)
(** * _functions.py: remove_path                                          *)
(* ===================================================================== *)

Definition _remove_pathlib_path (path : Local.path) (recursive : bool) : M Local.FS unit :=
  fun fs =>
    if recursive && negb (Local.exists_ path fs) then (Return tt, fs)
    else if negb (Local.is_dir path fs) then Local.unlink path fs
    else if negb recursive then Local.rmdir path fs
    else Local.rmtree path fs.

(** A ContainerPath: a container and a path in it. *)
Record ContainerPath (C : Type) : Type := mkContainerPath {
  _container : C;
  _path : Local.path
}.
Arguments mkContainerPath {C} _ _.
Arguments _container {C} _.
Arguments _path {C} _.

(** What the package needs of [ops.Container], for containers [C] whose
    state is [R]: the remove-path call of the protocol, which returns or
    raises a [pebble.Error], and the [repr] of a path of the container. *)
Class Container (C R : Type) : Type := {
  Container_remove_path : C -> Local.path -> bool -> R -> option pebble.Error * R;
  repr : ContainerPath C -> string
}.

Section RemovePath.
Context {C R : Type} `{Container C R}.

Definition _remove_container_path (path : ContainerPath C) (recursive : bool) : M R unit :=
  fun r =>
    match Container_remove_path (_container path) (_path path) recursive r with
    | (None, r') => (Return tt, r')
    | (Some (pebble.PathError _ _ as e), r') =>
        let msg := repr path in
        (_ <- lift (_errors.raise_if_matches_directory_not_empty e msg) ;;
         _ <- lift (_errors.raise_if_matches_file_not_found e msg) ;;
         _ <- lift (_errors.raise_if_matches_permission e msg) ;;
         raise (PebbleError e)) r'
    | (Some e, r') => (Raise (PebbleError e), r')
    end.

(** [path: str | os.PathLike[str] | PathProtocol] *)
Inductive AnyPath : Type :=
| StrPath (p : Local.path)
| RemotePath (p : ContainerPath C).

(** The local filesystem and the state of the containers. *)
Definition remove_path (path : AnyPath) (recursive : bool) : M (Local.FS * R) unit :=
  fun w =>
    match path with
    | RemotePath p =>
        let '(r, remote) := _remove_container_path p recursive (snd w) in
        (r, (fst w, remote))
    | StrPath p =>
        let '(r, fs) := _remove_pathlib_path p recursive (fst w) in
        (r, (fs, snd w))
    end.

End RemovePath.
Arguments AnyPath C : clear implicits.

(** Modelled from the spec: the remote agent is an external collaborator.
    This one serves the remove-path call on a filesystem of its own: a
    recursive removal deletes the subtree and does nothing when the path is
    absent; a plain removal reports not-found for an absent path and a
    generic-file-error for a directory that has entries. *)
Module Agent.

Definition remove (p : Local.path) (recursive : bool) (fs : Local.FS)
    : option pebble.Error * Local.FS :=
  match Local.stat p fs with
  | Raise _ =>
      if recursive then (None, fs)
      else (Some (pebble.PathError "not-found"
                    ("remove " +:+ Local.as_posix p +:+ ": no such file or directory")), fs)
  | Return (Local.Directory _) =>
      if recursive then
        (None, Local.with_nodes fs
                 (filter (fun kv => ~ p `prefix_of` kv.1) (Local.nodes fs)))
      else if decide (Local.empty_dir p (Local.nodes fs)) then
        (None, Local.with_nodes fs (delete p (Local.nodes fs)))
      else (Some (pebble.PathError "generic-file-error"
                    ("remove " +:+ Local.as_posix p +:+ ": directory not empty")), fs)
  | Return _ => (None, Local.with_nodes fs (delete p (Local.nodes fs)))
  end.

#[global] Instance container : Container string Local.FS := {
  Container_remove_path := fun _ => remove;
  repr := fun p =>
    "ContainerPath('" +:+ Local.as_posix (_path p) +:+ "', container=<ops.Container '"
    +:+ _container p +:+ "'>)"
}.

End Agent.

(* ===================================================================== *)
(** * _types.py: name, suffix, stem and with_suffix                       *)
(* ===================================================================== *)

(** Modelled from the spec: the implementations of [with_suffix], [suffix]
    and [stem] (pathlib for LocalPath, _container_path.py for
    ContainerPath) are not among the sources; what follows is what the
    docstrings of PathProtocol in _types.py say of them, as functions of
    the path's [name].  The rest of the path is left as it is. *)
Module PathName.

(** The position of the last ['.'] of the name, if it has one. *)
Fixpoint last_dot (name : string) : option nat :=
  match name with
  | EmptyString => None
  | String c rest =>
      match last_dot rest with
      | Some i => Some (S i)
      | None => if Ascii.eqb c "."%char then Some 0%nat else None
      end
  end.

(** Where the last suffix of the name starts: at its last ['.'], unless
    the name has none or ends with it. *)
Definition suffix_start (name : string) : option nat :=
  match last_dot name with
  | Some i => if Nat.eqb (S i) (String.length name) then None else Some i
  | None => None
  end.

(** "The path name's last suffix (if it has any) including the leading
    '.'.  If the path name doesn't have a suffix, the result is an empty
    string." *)
Definition suffix (name : string) : string :=
  match suffix_start name with
  | Some i => String.substring i (String.length name - i) name
  | None => ""
  end.

(** "The path name, minus its last suffix." *)
Definition stem (name : string) : string :=
  match suffix_start name with
  | Some i => String.substring 0 i name
  | None => name
  end.

(** Modelled from the spec: [with_suffix], as its docstring has it:
    "suffix: Must start with a '.', unless it is an empty string, in which
    case any existing suffix will be removed entirely. [...] If it contains
    no '.', or ends with a '.', the suffix argument is appended to its
    name.  Otherwise, the last '.' and any trailing content is replaced
    with the suffix argument." *)
Definition with_suffix (name suffix : string) : Result string :=
  if String.eqb suffix "" || String.prefix "." suffix then
    match suffix_start name with
    | Some i => Return (String.substring 0 i name +:+ suffix)
    | None => Return (name +:+ suffix)
    end
  else Raise (ValueError ("Invalid suffix '" +:+ suffix +:+ "'")).

End PathName.

(* ===================================================================== *)
(** * .github/get-packages.py                                             *)
(* ===================================================================== *)

(** The script runs in the project root.  What it reads from outside is
    given to the model as arguments: [entries], the listing of the current
    directory (each name once, with whether it is a directory), and
    [check_output], what subprocess.check_output returns for a command
    ([None] when it raises).  What it prints is returned as a list of lines
    beside the result. *)
Module get_packages.

Definition _GLOBAL_FILES : list string := [".github"; "justfile"; "pyproject.toml"].

(** [s.split(sep)] for a one-character separator: never empty, and [[""]]
    for the empty string. *)
Fixpoint split (sep : ascii) (s : string) : list string :=
  match s with
  | EmptyString => [""]
  | String c rest =>
      if Ascii.eqb c sep then "" :: split sep rest
      else match split sep rest with
           | first :: others => String c first :: others
           | [] => [String c ""]
           end
  end.

(** The order of Python's [<=] on str: lexicographic on the characters. *)
Definition string_le (a b : string) : Prop := String.leb a b = true.

#[global] Instance string_le_dec (a b : string) : Decision (string_le a b).
Proof. unfold string_le. apply _. Defined.

Definition sorted (l : list string) : list string := merge_sort string_le l.

Definition newline : ascii := ascii_of_nat 10.

(** The glob pattern [[a-z]*] on a name. *)
Definition starts_lower (name : string) : bool :=
  match name with
  | String c _ => (97 <=? nat_of_ascii c)%nat && (nat_of_ascii c <=? 122)%nat
  | EmptyString => false
  end.

(** [pathlib.Path().glob(r'[a-z]*')]. *)
Definition glob_lower (entries : list (string * bool)) : list (string * bool) :=
  filter (fun e => starts_lower (fst e) = true) entries.

(** [pathlib.Path(name).is_dir()]. *)
Definition is_dir (entries : list (string * bool)) (name : string) : bool :=
  existsb (fun e => String.eqb (fst e) name && snd e) entries.

(** The repr of a list of strings that need no escaping, as the members of
    [_GLOBAL_FILES] are. *)
Definition repr_list (l : list string) : string :=
  "[" +:+ String.concat ", " (map (fun s => "'" +:+ s +:+ "'") l) +:+ "]".

Definition all_packages (entries : list (string * bool)) : list string :=
  let paths := ("_charmlibs", is_dir entries "_charmlibs") :: glob_lower entries in
  sorted (map fst (filter (fun e => snd e = true) paths)).

Definition _get_changed_packages (entries : list (string * bool))
    (check_output : list string -> option string) (git_base_ref : string)
    : list string * option (list string) :=
  if String.eqb git_base_ref "" then
    (["Using all packages because no git base ref was provided:"],
     Some (all_packages entries))
  else
    match check_output ["git"; "diff"; "--name-only"; "origin/" +:+ git_base_ref] with
    | None => ([], None)
    | Some diff =>
        let changes : gset string :=
          list_to_set (map (fun path => hd "" (split "/" path)) (split newline diff)) in
        match sorted (elements (changes ∩ list_to_set _GLOBAL_FILES)) with
        | [] =>
            (["Using packages that are changed compared to " +:+ git_base_ref +:+ ":"],
             Some (sorted (elements (changes ∩ list_to_set (all_packages entries)))))
        | global_changes =>
            (["Using all packages because global files were changed: "
              +:+ repr_list global_changes],
             Some (all_packages entries))
        end
    end.

End get_packages.

(* ===================================================================== *)
(** * The vocabulary of the properties                                    *)
(* ===================================================================== *)

(** [sub] occurs in [s]. *)
Definition has_substring (sub s : string) : Prop :=
  exists before after, s = before +:+ sub +:+ after.

(** A path error of the generic-file-error category whose message
    contains [sub]. *)
Definition generic_file_error_with (sub : string) (error : pebble.Error) : Prop :=
  exists message,
    error = pebble.PathError "generic-file-error" message /\ has_substring sub message.

Definition is_generic_file_error_with (sub : string) (error : pebble.Error) : bool :=
  match error with
  | pebble.PathError kind message => String.eqb kind "generic-file-error" && contains sub message
  | _ => false
  end.

(** The number a byte stands for, from 0 to 255. *)
Definition byte_value (b : byte) : Z := Z.of_N (Byte.to_N b).

(** The six bits a continuation byte, 0x80 to 0xBF, carries. *)
Definition continuation (b : byte) : option Z :=
  if (128 <=? byte_value b) && (byte_value b <=? 191) then Some (byte_value b - 128) else None.

(** A Unicode scalar value: a code point that is no surrogate. *)
Definition scalar_value (c : Z) : Prop :=
  0 <= c <= 1114111 /\ ~ 55296 <= c <= 57343.

#[global] Instance scalar_value_dec (c : Z) : Decision (scalar_value c).
Proof. unfold scalar_value. apply _. Defined.

(** The code points a sequence of bytes stands for in UTF-8, by the table
    of the standard (RFC 3629): one byte below 0x80; or a lead byte
    0xC2..0xDF, 0xE0..0xEF or 0xF0..0xF4 followed by one, two or three
    continuation bytes, the code point being in the range that needs that
    many bytes, at most U+10FFFF and no surrogate.  Anything else is not
    UTF-8. *)
Fixpoint utf8_decode (b : bytes) : option str :=
  match b with
  | [] => Some []
  | b0 :: rest =>
      let v := byte_value b0 in
      if v <=? 127 then
        match utf8_decode rest with
        | Some s => Some (v :: s)
        | None => None
        end
      else if (194 <=? v) && (v <=? 223) then
        match rest with
        | b1 :: rest =>
            match continuation b1, utf8_decode rest with
            | Some x1, Some s => Some ((v - 192) * 64 + x1 :: s)
            | _, _ => None
            end
        | _ => None
        end
      else if (224 <=? v) && (v <=? 239) then
        match rest with
        | b1 :: b2 :: rest =>
            match continuation b1, continuation b2, utf8_decode rest with
            | Some x1, Some x2, Some s =>
                let c := (v - 224) * 4096 + x1 * 64 + x2 in
                if (2048 <=? c) && negb ((55296 <=? c) && (c <=? 57343))
                then Some (c :: s) else None
            | _, _, _ => None
            end
        | _ => None
        end
      else if (240 <=? v) && (v <=? 244) then
        match rest with
        | b1 :: b2 :: b3 :: rest =>
            match continuation b1, continuation b2, continuation b3, utf8_decode rest with
            | Some x1, Some x2, Some x3, Some s =>
                let c := (v - 240) * 262144 + x1 * 4096 + x2 * 64 + x3 in
                if (65536 <=? c) && (c <=? 1114111) then Some (c :: s) else None
            | _, _, _, _ => None
            end
        | _ => None
        end
      else None
  end.

(** [desired] is absent, or [actual] is it. *)
Definition unless_none (desired actual : option string) : Prop :=
  forall d, desired = Some d -> actual = Some d.

(** P exists with the requested mode, owner, group and content. *)
Definition up_to_date {P W : Type} {backend : PathProtocol P W} (path : P) (content : bytes)
    (mode : Z) (user group : option string) (w : W) : Prop :=
  exists info,
    fileinfo path w = Return info /\
    metadata_matches info mode user group = true /\
    read_bytes path w = Return content.

(** Modelled from the spec: the implementations of write_bytes, read_bytes
    and of the metadata query are not among the sources.  What the contract
    says of them: write_bytes creates or overwrites the file, "setting
    permission bits and, if provided, owner/group", and read_bytes reads
    the "full contents".  The law is stated for a mode made of the nine
    permission bits, 0 to 0o777: these every backend stores and reports
    as they were given. *)
Class WriteThenRead {P W : Type} (backend : PathProtocol P W) : Prop := {
  written_fileinfo :
    forall path data mode user group (w : W) n w',
      0 <= mode <= 511 ->
      write_bytes path data mode user group w = (Return n, w') ->
      exists info,
        fileinfo path w' = Return info /\ metadata_matches info mode user group = true;
  written_read_bytes :
    forall path data mode user group (w : W) n w',
      write_bytes path data mode user group w = (Return n, w') ->
      read_bytes path w' = Return data
}.

(** The calls that change a filesystem, for a backend that records them. *)
Inductive Call (P : Type) : Type :=
| CallMkdir (path : P) (mode : Z) (parents exist_ok : bool) (user group : option string)
| CallWriteBytes (path : P) (data : bytes) (mode : Z) (user group : option string).
Arguments CallMkdir {P} _ _ _ _ _ _.
Arguments CallWriteBytes {P} _ _ _ _ _.

(** A backend together with the list of the [mkdir] and [write_bytes] calls
    made on it so far. *)
Definition Recording {P W : Type} (backend : PathProtocol P W)
    : PathProtocol P (W * list (Call P)) := {|
  parent := @parent P W backend;
  fileinfo := fun p w => @fileinfo P W backend p (fst w);
  read_bytes := fun p w => @read_bytes P W backend p (fst w);
  mkdir := fun p mode parents exist_ok user group w =>
    let '(r, w') := @mkdir P W backend p mode parents exist_ok user group (fst w) in
    (r, (w', (snd w ++ [CallMkdir p mode parents exist_ok user group])%list));
  write_bytes := fun p data mode user group w =>
    let '(r, w') := @write_bytes P W backend p data mode user group (fst w) in
    (r, (w', (snd w ++ [CallWriteBytes p data mode user group])%list))
|}.

(** The calls recorded by [Recording backend] during ensure_contents. *)
Definition calls_made {P W : Type} {backend : PathProtocol P W} (path : P) (source : Source)
    (mode : Z) (user group : option string) (w : W) : list (Call P) :=
  snd (snd (@ensure_contents P (W * list (Call P)) (Recording backend)
              path source mode user group (w, []))).

(** What _remove_container_path raises for the protocol error [e], with
    [msg] the repr of the path: the shared kind raised from [e] when [e] is
    recognised as directory-not-empty, not-found or permission-denied, and
    [e] itself otherwise. *)
Definition translated_or_raw (msg : string) (e : pebble.Error) (x : Exception) : Prop :=
  (generic_file_error_with "directory not empty" e /\
   x = OSError errno.ENOTEMPTY "Directory not empty" msg (Some e) /\
   raised_from x e) \/
  ((exists message, e = pebble.PathError "not-found" message) /\
   x = FileNotFoundError errno.ENOENT "No such file or directory" msg (Some e) /\
   raised_from x e) \/
  ((exists message, e = pebble.PathError "permission-denied" message) /\
   x = PermissionError errno.EPERM "Operation not permitted" msg (Some e) /\
   raised_from x e) \/
  (~ generic_file_error_with "directory not empty" e /\
   (forall message, e <> pebble.PathError "not-found" message) /\
   (forall message, e <> pebble.PathError "permission-denied" message) /\
   x = PebbleError e /\ is_raw x).

(** The call raised. *)
Definition raised {A : Type} (r : Result A) : bool :=
  match r with
  | Raise _ => true
  | Return _ => false
  end.

(** [sep] does not occur in [p]. *)
Definition free_of (sep : ascii) (p : string) : Prop :=
  forall before after, p <> before +:+ String sep after.

(** The command _get_changed_packages runs. *)
Definition diff_command (git_base_ref : string) : list string :=
  ["git"; "diff"; "--name-only"; "origin/" +:+ git_base_ref].

(** The first components of the lines of a diff. *)
Definition changed_components (diff : string) : list string :=
  map (fun path => hd "" (get_packages.split "/" path))
      (get_packages.split get_packages.newline diff).

(** A container that answers every remove-path call with the reply it was
    built with, as a test double does. *)
Module Scripted.

#[global] Instance container : Container (option pebble.Error) unit := {
  Container_remove_path := fun reply _ _ r => (reply, r);
  repr := fun p => "ContainerPath('" +:+ Local.as_posix (_path p) +:+ "')"
}.

End Scripted.

(** A small filesystem to run the functions on. *)
Module Examples.

Definition root_meta : Local.Meta := Local.mkMeta 493 "root" "root".

Definition conf : Local.path := ["etc"; "app"; "app.conf"].

Definition hello : bytes := ["h"%byte; "i"%byte].

Definition fs_with (n : gmap (list string) Local.Node) : Local.FS :=
  Local.mkFS n {["root"; "app"]} {["root"; "app"]} "root" "root" 18.

(** / and /etc, both directories. *)
Definition fs_fresh : Local.FS :=
  fs_with (<[ ["etc"] := Local.Directory root_meta ]> {[ [] := Local.Directory root_meta ]}).

(** [fs_fresh] with /etc/app/app.conf of the given mode in it. *)
Definition fs_conf (mode : Z) : Local.FS :=
  fs_with (<[ conf := Local.File (Local.mkMeta mode "root" "root") hello ]>
           (<[ ["etc"; "app"] := Local.Directory root_meta ]>
            (<[ ["etc"] := Local.Directory root_meta ]>
             {[ [] := Local.Directory root_meta ]}))).

(** What the metadata query returns for /etc/app/app.conf in [fs_conf mode]. *)
Definition conf_info (mode : Z) : pebble.FileInfo :=
  pebble.mkFileInfo "/etc/app/app.conf" "app.conf" pebble.FILE (Some 2) mode
    (Some "root") (Some "root").

(** Two replies of the protocol to a remove-path call. *)
Definition gone : pebble.Error :=
  pebble.PathError "not-found" "remove /srv/gone: no such file or directory".

Definition busy : pebble.Error :=
  pebble.PathError "generic-file-error" "remove /srv: device or resource busy".

End Examples.

(** A checkout of the repository and a diff against origin/main. *)
Module Checkout.

Definition entries : list (string * bool) :=
  [(".github", true); ("README.md", false); ("_charmlibs", true); ("docs", true);
   ("interfaces", true); ("justfile", false); ("pathops", true);
   ("pyproject.toml", false)].

Definition diff : string :=
  "pathops/src/charmlibs/pathops/_functions.py" +:+ String get_packages.newline
  ("README.md" +:+ String get_packages.newline
  ("docs/index.md" +:+ String get_packages.newline "")).

Definition check_output (cmd : list string) : option string :=
  if decide (cmd = diff_command "main") then Some diff else None.

End Checkout.

(* ===================================================================== *)
(** * Properties                                                          *)
(* ===================================================================== *)

(** ** Substrings *)

Lemma append_nil (s : string) : "" +:+ s = s.
Proof. reflexivity. Qed.

Lemma append_cons (c : ascii) (s t : string) : String c s +:+ t = String c (s +:+ t).
Proof. reflexivity. Qed.

Lemma prefix_true (sub s : string) :
  String.prefix sub s = true <-> exists after, s = sub +:+ after.
Proof.
  revert s. induction sub as [|a sub IH]; intros s.
  - split; [intros _; exists s; reflexivity | intros; destruct s; reflexivity].
  - destruct s as [|b s]; simpl.
    + split; [discriminate | intros [after Heq]; discriminate].
    + setoid_rewrite append_cons. destruct (Ascii.ascii_dec a b) as [->|Hne].
      * rewrite IH. split; intros [after Heq]; exists after; congruence.
      * split; [discriminate | intros [after Heq]; congruence].
Qed.

Lemma contains_true (sub s : string) :
  contains sub s = true <-> has_substring sub s.
Proof.
  unfold has_substring. induction s as [|c s IH]; cbn [contains].
  - rewrite orb_false_r, prefix_true. split.
    + intros [after Heq]. exists "", after. exact Heq.
    + intros [[|b before] [after Heq]]; [exists after; exact Heq | discriminate].
  - rewrite orb_true_iff, prefix_true, IH. split.
    + intros [[after Heq] | (before & after & Heq)].
      * exists "", after. exact Heq.
      * exists (String c before), after. rewrite append_cons. congruence.
    + intros ([|b before] & after & Heq).
      * left. exists after. exact Heq.
      * right. exists before, after. rewrite append_cons in Heq. congruence.
Qed.

(** ** The error mapper *)

Lemma is_generic_file_error_with_true sub error :
  is_generic_file_error_with sub error = true <-> generic_file_error_with sub error.
Proof.
  unfold generic_file_error_with. destruct error as [kind message| | | |]; simpl;
    try (split; [discriminate | intros (m & Heq & _); discriminate]).
  rewrite andb_true_iff, String.eqb_eq, contains_true. split.
  - intros [-> Hsub]. eauto.
  - intros (m & Heq & Hsub). injection Heq as -> ->. auto.
Qed.

Lemma is_generic_file_error_with_false sub error :
  is_generic_file_error_with sub error = false <-> ~ generic_file_error_with sub error.
Proof.
  rewrite <- is_generic_file_error_with_true. destruct (is_generic_file_error_with sub error);
    split; congruence.
Qed.

Lemma raise_if_matches_file_exists_eq error msg :
  _errors.raise_if_matches_file_exists error msg =
  if is_generic_file_error_with "file exists" error
  then Raise (FileExistsError 17 "File exists" msg (Some error))
  else Return tt.
Proof. destruct error; reflexivity. Qed.

Lemma raise_if_matches_is_a_directory_eq error msg :
  _errors.raise_if_matches_is_a_directory error msg =
  if is_generic_file_error_with "can only read a regular file" error
  then Raise (IsADirectoryError 21 "Is a directory" msg (Some error))
  else Return tt.
Proof. destruct error; reflexivity. Qed.

Lemma raise_if_matches_lookup_eq error msg :
  _errors.raise_if_matches_lookup error msg =
  if is_generic_file_error_with "cannot look up user and group" error
  then Raise (LookupError msg (Some error))
  else Return tt.
Proof. destruct error; reflexivity. Qed.

Lemma raise_if_matches_directory_not_empty_eq error msg :
  _errors.raise_if_matches_directory_not_empty error msg =
  if is_generic_file_error_with "directory not empty" error
  then Raise (OSError 39 "Directory not empty" msg (Some error))
  else Return tt.
Proof. destruct error; reflexivity. Qed.

(** C7. For a protocol error of the generic-file-error category the mapper
    decides by a substring of the message: with 'file exists' it raises
    FileExistsError, with 'can only read a regular file' IsADirectoryError,
    with 'cannot look up user and group' LookupError, each from the protocol
    error, and with 'not a directory' the error is recognised as
    not-a-directory.  An error of another category, or whose message lacks
    the substring, is not matched: the raise_if functions return and
    matches_not_a_directory is false. *)
Theorem generic_file_error_mapped_by_substring (error : pebble.Error) (msg : string) :
  (_errors.raise_if_matches_file_exists error msg
     = Raise (FileExistsError errno.EEXIST "File exists" msg (Some error))
   <-> generic_file_error_with "file exists" error) /\
  (_errors.raise_if_matches_file_exists error msg = Return tt
   <-> ~ generic_file_error_with "file exists" error) /\
  (_errors.raise_if_matches_is_a_directory error msg
     = Raise (IsADirectoryError errno.EISDIR "Is a directory" msg (Some error))
   <-> generic_file_error_with "can only read a regular file" error) /\
  (_errors.raise_if_matches_is_a_directory error msg = Return tt
   <-> ~ generic_file_error_with "can only read a regular file" error) /\
  (_errors.raise_if_matches_lookup error msg = Raise (LookupError msg (Some error))
   <-> generic_file_error_with "cannot look up user and group" error) /\
  (_errors.raise_if_matches_lookup error msg = Return tt
   <-> ~ generic_file_error_with "cannot look up user and group" error) /\
  (_errors.matches_not_a_directory error = true
   <-> generic_file_error_with "not a directory" error).
Proof.
  rewrite raise_if_matches_file_exists_eq, raise_if_matches_is_a_directory_eq,
    raise_if_matches_lookup_eq.
  change (_errors.matches_not_a_directory error)
    with (is_generic_file_error_with "not a directory" error).
  rewrite <- !is_generic_file_error_with_false, <- !is_generic_file_error_with_true.
  repeat split;
    repeat match goal with
           | |- context [if ?b then _ else _] => destruct b
           end; intros; first [congruence | reflexivity].
Qed.

(** ** str.encode() *)

Lemma encode_ascii (s : str) :
  Forall (fun c => 0 <= c < 128) s -> encode s = Return (map byte_of_Z s).
Proof.
  induction 1 as [|c s Hc _ IH]; [reflexivity|]. simpl. rewrite IH.
  unfold encode_codepoint.
  destruct (Z.ltb_spec c 0); [lia|]. destruct (Z.ltb_spec 1114111 c); [lia|].
  destruct (Z.ltb_spec c 128); [reflexivity | lia].
Qed.

Lemma byte_value_of_Z (z : Z) : 0 <= z < 256 -> byte_value (byte_of_Z z) = z.
Proof.
  intros Hz. unfold byte_value, byte_of_Z. rewrite Z.mod_small by lia.
  destruct (Byte.of_N (Z.to_N z)) as [b|] eqn:Hb.
  - apply Byte.to_of_N in Hb. rewrite Hb. lia.
  - apply Byte.of_N_None_iff in Hb. lia.
Qed.

Lemma byte_of_value (b : byte) : byte_of_Z (byte_value b) = b.
Proof.
  unfold byte_value, byte_of_Z. pose proof (Byte.to_N_bounded b) as Hb.
  rewrite Z.mod_small by lia. rewrite N2Z.id, Byte.of_to_N. reflexivity.
Qed.

Lemma byte_value_bounded (b : byte) : 0 <= byte_value b < 256.
Proof. unfold byte_value. pose proof (Byte.to_N_bounded b). lia. Qed.

(** Setting lead bits that the payload does not reach is adding them. *)
Lemma lor_lead (lead x : Z) (n : Z) :
  0 <= n -> 0 <= x < 2 ^ n -> Z.land lead (Z.ones n) = 0 -> Z.lor lead x = lead + x.
Proof.
  intros Hn Hx Hlead.
  assert (Hdisjoint : Z.land lead x = 0).
  { rewrite <- (Z.mod_small x (2 ^ n)) by lia. rewrite <- Z.land_ones by lia.
    rewrite (Z.land_comm x), Z.land_assoc, Hlead. apply Z.land_0_l. }
  rewrite <- Z.lxor_lor by exact Hdisjoint. symmetry. apply Z.add_nocarry_lxor. exact Hdisjoint.
Qed.

Lemma payload_6 (c : Z) : 0 <= c -> Z.land c 63 = c mod 64.
Proof. intros Hc. change 63 with (Z.ones 6). rewrite Z.land_ones by lia. reflexivity. Qed.

Lemma shiftr_6 (c : Z) : Z.shiftr c 6 = c / 64.
Proof. rewrite Z.shiftr_div_pow2 by lia. reflexivity. Qed.
Lemma shiftr_12 (c : Z) : Z.shiftr c 12 = c / 4096.
Proof. rewrite Z.shiftr_div_pow2 by lia. reflexivity. Qed.
Lemma shiftr_18 (c : Z) : Z.shiftr c 18 = c / 262144.
Proof. rewrite Z.shiftr_div_pow2 by lia. reflexivity. Qed.

Lemma continuation_byte (x : Z) :
  0 <= x < 64 -> continuation (byte_of_Z (Z.lor 128 x)) = Some x.
Proof.
  intros Hx. rewrite (lor_lead 128 x 6) by (try reflexivity; change (2 ^ 6) with 64; lia).
  unfold continuation. rewrite byte_value_of_Z by lia.
  destruct (Z.leb_spec 128 (128 + x)); [|lia].
  destruct (Z.leb_spec (128 + x) 191); [|lia]. simpl. f_equal. lia.
Qed.

Lemma lead_byte (lead x n : Z) :
  0 <= n -> 0 <= x < 2 ^ n -> Z.land lead (Z.ones n) = 0 -> 0 <= lead -> lead + 2 ^ n <= 256 ->
  byte_value (byte_of_Z (Z.lor lead x)) = lead + x.
Proof.
  intros Hn Hx Hlead Hpos Hfit. rewrite (lor_lead lead x n) by assumption.
  apply byte_value_of_Z. lia.
Qed.

(** Decoding what one code point was encoded to gives the code point back. *)
Lemma utf8_decode_codepoint (c : Z) (b rest : bytes) :
  encode_codepoint c = Return b ->
  utf8_decode (b ++ rest) =
  match utf8_decode rest with
  | Some s => Some (c :: s)
  | None => None
  end.
Proof.
  unfold encode_codepoint.
  destruct (Z.ltb_spec c 0); [discriminate|].
  destruct (Z.ltb_spec 1114111 c); [discriminate|]. simpl.
  destruct (Z.ltb_spec c 128).
  { intros [= <-]. simpl. rewrite byte_value_of_Z by lia.
    destruct (Z.leb_spec c 127); [reflexivity | lia]. }
  destruct (Z.ltb_spec c 2048).
  { intros [= <-]. rewrite shiftr_6, payload_6 by lia.
    assert (Hhigh : 2 <= c / 64 < 32) by (split; [apply Z.div_le_lower_bound | apply Z.div_lt_upper_bound]; lia).
    assert (Hlow : 0 <= c mod 64 < 64) by (apply Z.mod_pos_bound; lia).
    cbn [app utf8_decode].
    rewrite (lead_byte 192 (c / 64) 5) by (try reflexivity; change (2 ^ 5) with 32; lia).
    rewrite continuation_byte by exact Hlow.
    destruct (Z.leb_spec (192 + c / 64) 127); [lia|].
    destruct (Z.leb_spec 194 (192 + c / 64)); [|lia].
    destruct (Z.leb_spec (192 + c / 64) 223); [|lia]. cbn [andb].
    replace ((192 + c / 64 - 192) * 64 + c mod 64) with c
      by (rewrite (Z.div_mod c 64) at 1 by lia; lia).
    reflexivity. }
  destruct ((55296 <=? c) && (c <=? 57343)) eqn:Hsurrogate; [discriminate|].
  destruct (Z.ltb_spec c 65536).
  { intros [= <-]. rewrite shiftr_12, shiftr_6, !payload_6
      by (try apply Z.div_pos; lia).
    assert (Hhigh : 0 <= c / 4096 < 16) by (split; [apply Z.div_pos | apply Z.div_lt_upper_bound]; lia).
    assert (Hmid : 0 <= (c / 64) mod 64 < 64) by (apply Z.mod_pos_bound; lia).
    assert (Hlow : 0 <= c mod 64 < 64) by (apply Z.mod_pos_bound; lia).
    cbn [app utf8_decode].
    rewrite (lead_byte 224 (c / 4096) 4) by (try reflexivity; change (2 ^ 4) with 16; lia).
    rewrite !continuation_byte by assumption.
    destruct (Z.leb_spec (224 + c / 4096) 127); [lia|].
    destruct (Z.leb_spec 194 (224 + c / 4096)); [|lia].
    destruct (Z.leb_spec (224 + c / 4096) 223); [lia|].
    destruct (Z.leb_spec 224 (224 + c / 4096)); [|lia].
    destruct (Z.leb_spec (224 + c / 4096) 239); [|lia]. cbn [andb].
    replace ((224 + c / 4096 - 224) * 4096 + (c / 64) mod 64 * 64 + c mod 64) with c
      by (pose proof (Z.div_mod c 64); pose proof (Z.div_mod (c / 64) 64);
          replace (c / 4096) with (c / 64 / 64) by (rewrite Z.div_div by lia; reflexivity);
          lia).
    destruct (Z.leb_spec 2048 c); [|lia]. rewrite Hsurrogate. reflexivity. }
  intros [= <-]. rewrite shiftr_18, shiftr_12, shiftr_6, !payload_6
    by (try apply Z.div_pos; lia).
  assert (Hhigh : 0 <= c / 262144 < 5) by (split; [apply Z.div_pos | apply Z.div_lt_upper_bound]; lia).
  assert (Hmid2 : 0 <= (c / 4096) mod 64 < 64) by (apply Z.mod_pos_bound; lia).
  assert (Hmid : 0 <= (c / 64) mod 64 < 64) by (apply Z.mod_pos_bound; lia).
  assert (Hlow : 0 <= c mod 64 < 64) by (apply Z.mod_pos_bound; lia).
  cbn [app utf8_decode].
  rewrite (lead_byte 240 (c / 262144) 3) by (try reflexivity; change (2 ^ 3) with 8; lia).
  rewrite !continuation_byte by assumption.
  destruct (Z.leb_spec (240 + c / 262144) 127); [lia|].
  destruct (Z.leb_spec 194 (240 + c / 262144)); [|lia].
  destruct (Z.leb_spec (240 + c / 262144) 223); [lia|].
  destruct (Z.leb_spec 224 (240 + c / 262144)); [|lia].
  destruct (Z.leb_spec (240 + c / 262144) 239); [lia|].
  destruct (Z.leb_spec 240 (240 + c / 262144)); [|lia].
  destruct (Z.leb_spec (240 + c / 262144) 244); [|lia]. cbn [andb].
  replace ((240 + c / 262144 - 240) * 262144 + (c / 4096) mod 64 * 4096
           + (c / 64) mod 64 * 64 + c mod 64) with c
    by (pose proof (Z.div_mod c 64); pose proof (Z.div_mod (c / 64) 64);
        pose proof (Z.div_mod (c / 64 / 64) 64);
        replace (c / 4096) with (c / 64 / 64) by (rewrite Z.div_div by lia; reflexivity);
        replace (c / 262144) with (c / 64 / 64 / 64) by (rewrite !Z.div_div by lia; reflexivity);
        lia).
  destruct (Z.leb_spec 65536 c); [|lia].
  destruct (Z.leb_spec c 1114111); [|lia]. reflexivity.
Qed.

Lemma encode_scalar (c : Z) :
  scalar_value c -> exists b, encode_codepoint c = Return b.
Proof.
  intros [Hrange Hsurrogate]. unfold encode_codepoint.
  destruct (Z.ltb_spec c 0); [lia|]. destruct (Z.ltb_spec 1114111 c); [lia|]. simpl.
  destruct (c <? 128); [eauto|]. destruct (Z.ltb_spec c 2048); [eauto|].
  destruct (Z.leb_spec 55296 c); destruct (Z.leb_spec c 57343); simpl; try lia;
    destruct (c <? 65536); eauto.
Qed.

Lemma encode_not_scalar (c : Z) :
  ~ scalar_value c -> encode_codepoint c = Raise (UnicodeEncodeError c).
Proof.
  intros Hnot. unfold encode_codepoint, scalar_value in *.
  destruct (Z.ltb_spec c 0); [reflexivity|].
  destruct (Z.ltb_spec 1114111 c); [reflexivity|]. simpl.
  destruct (Z.ltb_spec c 128); [lia|]. destruct (Z.ltb_spec c 2048); [lia|].
  destruct (Z.leb_spec 55296 c); destruct (Z.leb_spec c 57343); simpl; try lia; reflexivity.
Qed.

(** [encode] returns exactly on sequences of scalar values, and what it
    returns decodes to the sequence. *)
Lemma encode_decode (s : str) :
  (Forall scalar_value s ->
   exists b, encode s = Return b /\ utf8_decode b = Some s) /\
  (forall c before after,
      s = (before ++ c :: after)%list -> Forall scalar_value before -> ~ scalar_value c ->
      encode s = Raise (UnicodeEncodeError c)).
Proof.
  split.
  - induction 1 as [|c s Hc _ (b & Hb & Hdecode)]; [exists []; split; reflexivity|].
    destruct (encode_scalar c Hc) as [b0 Hb0]. exists (b0 ++ b)%list. split.
    + simpl. rewrite Hb0, Hb. reflexivity.
    + rewrite (utf8_decode_codepoint c b0 b Hb0), Hdecode. reflexivity.
  - intros c before after -> Hbefore Hc.
    induction Hbefore as [|c0 before Hc0 _ IH]; simpl.
    + rewrite (encode_not_scalar c Hc). reflexivity.
    + destruct (encode_scalar c0 Hc0) as [b0 ->]. rewrite IH. reflexivity.
Qed.

Lemma continuation_some (b : byte) (x : Z) :
  continuation b = Some x -> 0 <= x < 64 /\ byte_of_Z (Z.lor 128 x) = b.
Proof.
  unfold continuation.
  destruct (Z.leb_spec 128 (byte_value b)); [|discriminate].
  destruct (Z.leb_spec (byte_value b) 191); [|discriminate]. simpl. intros [= <-].
  split; [lia|]. rewrite (lor_lead 128 _ 6) by (try reflexivity; change (2 ^ 6) with 64; lia).
  replace (128 + (byte_value b - 128)) with (byte_value b) by lia. apply byte_of_value.
Qed.

Lemma lead_of_value (b : byte) (lead n : Z) :
  0 <= n -> Z.land lead (Z.ones n) = 0 -> lead <= byte_value b < lead + 2 ^ n ->
  byte_of_Z (Z.lor lead (byte_value b - lead)) = b.
Proof.
  intros Hn Hlead Hb. rewrite (lor_lead lead _ n) by (try assumption; lia).
  replace (lead + (byte_value b - lead)) with (byte_value b) by lia. apply byte_of_value.
Qed.

(** What decodes to a sequence of code points is what the sequence is
    encoded to. *)
Lemma decode_encode (b : bytes) :
  forall s, utf8_decode b = Some s -> encode s = Return b.
Proof.
  induction b as [b IH] using (induction_ltof1 _ (@length byte)). unfold ltof in IH.
  intros s. destruct b as [|b0 rest]; [intros [= <-]; reflexivity|].
  cbn [utf8_decode]. cbv zeta.
  pose proof (byte_value_bounded b0) as Hb0.
  destruct (Z.leb_spec (byte_value b0) 127).
  { destruct (utf8_decode rest) as [s'|] eqn:Hrest; [|discriminate]. intros [= <-].
    simpl. rewrite (IH rest ltac:(simpl; lia) s' Hrest).
    unfold encode_codepoint.
    destruct (Z.ltb_spec (byte_value b0) 0); [lia|].
    destruct (Z.ltb_spec 1114111 (byte_value b0)); [lia|].
    destruct (Z.ltb_spec (byte_value b0) 128); [|lia]. simpl.
    rewrite byte_of_value. reflexivity. }
  destruct (Z.leb_spec 194 (byte_value b0)); cbn [andb].
  2: { destruct (Z.leb_spec 224 (byte_value b0)); [lia|].
       destruct (Z.leb_spec 240 (byte_value b0)); [lia|]. discriminate. }
  destruct (Z.leb_spec (byte_value b0) 223); cbn [andb].
  { destruct rest as [|b1 rest]; [discriminate|].
    destruct (continuation b1) as [x1|] eqn:Hcont1; [|discriminate].
    destruct (utf8_decode rest) as [s'|] eqn:Hrest; [|discriminate]. intros [= <-].
    apply continuation_some in Hcont1 as [Hx1 Hb1].
    simpl. rewrite (IH rest ltac:(simpl; lia) s' Hrest).
    set (c := (byte_value b0 - 192) * 64 + x1).
    assert (Hc : 128 <= c < 2048) by (unfold c; lia).
    unfold encode_codepoint.
    destruct (Z.ltb_spec c 0); [lia|]. destruct (Z.ltb_spec 1114111 c); [lia|].
    destruct (Z.ltb_spec c 128); [lia|]. destruct (Z.ltb_spec c 2048); [|lia]. simpl.
    rewrite shiftr_6, payload_6 by lia.
    replace (c / 64) with (byte_value b0 - 192)
      by (apply (Z.div_unique c 64 _ x1); unfold c; lia).
    replace (c mod 64) with x1
      by (apply (Z.mod_unique c 64 (byte_value b0 - 192) x1); unfold c; lia).
    rewrite (lead_of_value b0 192 5) by (try reflexivity; change (2 ^ 5) with 32; lia).
    rewrite Hb1. reflexivity. }
  destruct (Z.leb_spec 224 (byte_value b0)); [|lia]. cbn [andb].
  destruct (Z.leb_spec (byte_value b0) 239); cbn [andb].
  { destruct rest as [|b1 [|b2 rest]]; try discriminate.
    destruct (continuation b1) as [x1|] eqn:Hcont1; [|discriminate].
    destruct (continuation b2) as [x2|] eqn:Hcont2; [|discriminate].
    destruct (utf8_decode rest) as [s'|] eqn:Hrest; [|discriminate].
    apply continuation_some in Hcont1 as [Hx1 Hb1]. apply continuation_some in Hcont2 as [Hx2 Hb2].
    set (c := (byte_value b0 - 224) * 4096 + x1 * 64 + x2).
    destruct (Z.leb_spec 2048 c); [|discriminate]. cbn [andb].
    destruct ((55296 <=? c) && (c <=? 57343)) eqn:Hsurrogate; [discriminate|].
    intros [= <-]. simpl. rewrite (IH rest ltac:(simpl; lia) s' Hrest).
    assert (Hc : 2048 <= c < 65536) by (unfold c in *; lia).
    unfold encode_codepoint.
    destruct (Z.ltb_spec c 0); [lia|]. destruct (Z.ltb_spec 1114111 c); [lia|].
    destruct (Z.ltb_spec c 128); [lia|]. destruct (Z.ltb_spec c 2048); [lia|].
    rewrite Hsurrogate. destruct (Z.ltb_spec c 65536); [|lia]. simpl.
    rewrite shiftr_12, shiftr_6, !payload_6 by (try apply Z.div_pos; lia).
    replace (c / 4096) with (byte_value b0 - 224)
      by (apply (Z.div_unique c 4096 _ (x1 * 64 + x2)); unfold c; lia).
    replace (c mod 64) with x2
      by (apply (Z.mod_unique c 64 ((byte_value b0 - 224) * 64 + x1) x2); unfold c; lia).
    replace (c / 64) with ((byte_value b0 - 224) * 64 + x1)
      by (apply (Z.div_unique c 64 _ x2); unfold c; lia).
    replace (((byte_value b0 - 224) * 64 + x1) mod 64) with x1
      by (apply (Z.mod_unique _ 64 (byte_value b0 - 224) x1); lia).
    rewrite (lead_of_value b0 224 4) by (try reflexivity; change (2 ^ 4) with 16; lia).
    rewrite Hb1, Hb2. reflexivity. }
  destruct (Z.leb_spec 240 (byte_value b0)); [|lia]. cbn [andb].
  destruct (Z.leb_spec (byte_value b0) 244); [|discriminate]. cbn [andb].
  destruct rest as [|b1 [|b2 [|b3 rest]]]; try discriminate.
  destruct (continuation b1) as [x1|] eqn:Hcont1; [|discriminate].
  destruct (continuation b2) as [x2|] eqn:Hcont2; [|discriminate].
  destruct (continuation b3) as [x3|] eqn:Hcont3; [|discriminate].
  destruct (utf8_decode rest) as [s'|] eqn:Hrest; [|discriminate].
  apply continuation_some in Hcont1 as [Hx1 Hb1]. apply continuation_some in Hcont2 as [Hx2 Hb2].
  apply continuation_some in Hcont3 as [Hx3 Hb3].
  set (c := (byte_value b0 - 240) * 262144 + x1 * 4096 + x2 * 64 + x3).
  destruct (Z.leb_spec 65536 c); [|discriminate].
  destruct (Z.leb_spec c 1114111); [|discriminate]. cbn [andb].
  intros [= <-]. simpl. rewrite (IH rest ltac:(simpl; lia) s' Hrest).
  unfold encode_codepoint.
  destruct (Z.ltb_spec c 0); [lia|]. destruct (Z.ltb_spec 1114111 c); [lia|].
  destruct (Z.ltb_spec c 128); [lia|]. destruct (Z.ltb_spec c 2048); [lia|].
  destruct (Z.leb_spec 55296 c); [|lia]. destruct (Z.leb_spec c 57343); [lia|].
  destruct (Z.ltb_spec c 65536); [lia|]. simpl.
  rewrite shiftr_18, shiftr_12, shiftr_6, !payload_6 by (try apply Z.div_pos; lia).
  replace (c / 262144) with (byte_value b0 - 240)
    by (apply (Z.div_unique c 262144 _ (x1 * 4096 + x2 * 64 + x3)); unfold c; lia).
  replace (c mod 64) with x3
    by (apply (Z.mod_unique c 64 ((byte_value b0 - 240) * 4096 + x1 * 64 + x2) x3);
        unfold c; lia).
  replace (c / 64) with ((byte_value b0 - 240) * 4096 + x1 * 64 + x2)
    by (apply (Z.div_unique c 64 _ x3); unfold c; lia).
  replace (c / 4096) with ((byte_value b0 - 240) * 64 + x1)
    by (apply (Z.div_unique c 4096 _ (x2 * 64 + x3)); unfold c; lia).
  replace (((byte_value b0 - 240) * 4096 + x1 * 64 + x2) mod 64) with x2
    by (apply (Z.mod_unique _ 64 ((byte_value b0 - 240) * 64 + x1) x2); lia).
  replace (((byte_value b0 - 240) * 64 + x1) mod 64) with x1
    by (apply (Z.mod_unique _ 64 (byte_value b0 - 240) x1); lia).
  rewrite (lead_of_value b0 240 3) by (try reflexivity; change (2 ^ 3) with 8; lia).
  rewrite Hb1, Hb2, Hb3. reflexivity.
Qed.

(** A str that is not all scalar values has a first code point that is
    none. *)
Lemma first_not_scalar (s : str) :
  ~ Forall scalar_value s ->
  exists before c after,
    s = (before ++ c :: after)%list /\ Forall scalar_value before /\ ~ scalar_value c.
Proof.
  induction s as [|c s IH]; intros Hnot; [exfalso; apply Hnot; constructor|].
  destruct (decide (scalar_value c)) as [Hc|Hc].
  - destruct IH as (before & c' & after & -> & Hbefore & Hc').
    + intros Hs. apply Hnot. constructor; assumption.
    + exists (c :: before), c', after. split; [reflexivity|]. split; [constructor|]; assumption.
  - exists [], c, s. split; [reflexivity|]. split; [constructor | exact Hc].
Qed.

(** What [encode] returns decodes to the string, and nothing else does. *)
Lemma encode_returns_iff (s : str) (b : bytes) :
  encode s = Return b <-> utf8_decode b = Some s.
Proof.
  split; [|apply decode_encode].
  revert b. induction s as [|c s IH]; intros b; simpl; [intros [= <-]; reflexivity|].
  destruct (encode_codepoint c) as [b0|e] eqn:Hc; [|discriminate].
  destruct (encode s) as [bs|e]; [|discriminate]. intros [= <-].
  rewrite (utf8_decode_codepoint c b0 bs Hc), (IH bs eq_refl). reflexivity.
Qed.

(** U+00E9, U+20AC and U+1F600 take two, three and four bytes; a lone
    surrogate cannot be encoded. *)
Example encode_examples :
  encode [233; 8364; 128512]
  = Return ["195"%byte; "169"%byte; "226"%byte; "130"%byte; "172"%byte;
            "240"%byte; "159"%byte; "152"%byte; "128"%byte] /\
  encode [104; 55296] = Raise (UnicodeEncodeError 55296).
Proof. split; vm_compute; reflexivity. Qed.

(** ** ensure_contents *)

Lemma none_or_equal_true desired actual :
  none_or_equal desired actual = true <-> unless_none desired actual.
Proof.
  unfold none_or_equal, unless_none. destruct desired as [d|].
  - rewrite bool_decide_eq_true. split; [intros -> d' [= ->]; reflexivity | auto].
  - split; [intros _ d' [=] | reflexivity].
Qed.

Lemma metadata_matches_true info mode user group :
  metadata_matches info mode user group = true <->
  pebble.permissions info = mode /\
  unless_none user (pebble.user info) /\
  unless_none group (pebble.group info).
Proof.
  unfold metadata_matches.
  rewrite !andb_true_iff, Z.eqb_eq, !none_or_equal_true. tauto.
Qed.

Section EnsureContentsSteps.
Context {P W : Type} {backend : PathProtocol P W}.

(** ensure_contents on bytes, case by case. *)
Lemma ensure_contents_bytes path content mode user group (w : W) :
  ensure_contents path (Bytes content) mode user group w =
  match fileinfo path w with
  | Raise e =>
      if is_FileNotFoundError e then write_contents path content mode user group w
      else (Raise e, w)
  | Return info =>
      if metadata_matches info mode user group then
        match read_bytes path w with
        | Raise e => (Raise e, w)
        | Return data =>
            if bool_decide (data = content) then (Return false, w)
            else write_contents path content mode user group w
        end
      else write_contents path content mode user group w
  end.
Proof.
  unfold ensure_contents, bind, lift, try_, query, _get_fileinfo, already_matches. simpl.
  destruct (fileinfo path w) as [info|e].
  - destruct (metadata_matches info mode user group); [|reflexivity].
    unfold bind, query, ret. destruct (read_bytes path w) as [data|e]; [|reflexivity].
    destruct (bool_decide (data = content)); reflexivity.
  - destruct (is_FileNotFoundError e); reflexivity.
Qed.

(** The source is turned into bytes first. *)
Lemma ensure_contents_as_bytes path source mode user group (w : W) :
  ensure_contents path source mode user group w =
  match _as_bytes source with
  | Return content => ensure_contents path (Bytes content) mode user group w
  | Raise e => (Raise e, w)
  end.
Proof.
  unfold ensure_contents, bind, lift. simpl. destruct (_as_bytes source); reflexivity.
Qed.

(** When the steps after the check return, they return True. *)
Lemma write_contents_returns path content mode user group (w w' : W) (b : bool) :
  write_contents path content mode user group w = (Return b, w') ->
  b = true /\
  exists w1 n,
    mkdir (parent path) _constants.DEFAULT_MKDIR_MODE true true None None w = (Return tt, w1) /\
    write_bytes path content mode user group w1 = (Return n, w').
Proof.
  unfold write_contents, bind, ret.
  destruct (mkdir _ _ _ _ _ _ w) as [[[]|e] w1] eqn:Hmkdir; [|discriminate].
  destruct (write_bytes _ _ _ _ _ w1) as [[n|e] w2] eqn:Hwrite; [|discriminate].
  intros [= <- <-]. split; [reflexivity | exists w1, n; split; [reflexivity | exact Hwrite]].
Qed.

End EnsureContentsSteps.

Section EnsureContentsProperties.
Context {P W : Type} {backend : PathProtocol P W}.


(** C3, as the code has it. For an existing path P (the metadata query
    returns), ensure_contents returns False exactly when the permission
    bits equal the mode, the owner and the group equal the requested ones
    where one is requested, and reading P returns the content; it then
    leaves the filesystem as it was and calls neither mkdir nor
    write_bytes.  When the metadata matches and reading P raises, that
    error is raised and nothing is written.  In every other case the call
    is the making of the parent directories and the write, followed by
    returning True. *)
Theorem ensure_contents_existing path content mode user group
    (w : W) (info : pebble.FileInfo) :
  fileinfo path w = Return info ->
  (fst (ensure_contents path (Bytes content) mode user group w) = Return false
   <-> pebble.permissions info = mode /\
       unless_none user (pebble.user info) /\
       unless_none group (pebble.group info) /\
       read_bytes path w = Return content) /\
  (fst (ensure_contents path (Bytes content) mode user group w) = Return false ->
   snd (ensure_contents path (Bytes content) mode user group w) = w /\
   calls_made path (Bytes content) mode user group w = []) /\
  (forall e,
      metadata_matches info mode user group = true ->
      read_bytes path w = Raise e ->
      ensure_contents path (Bytes content) mode user group w = (Raise e, w)) /\
  (metadata_matches info mode user group = false \/
   (exists data, read_bytes path w = Return data /\ data <> content) ->
   ensure_contents path (Bytes content) mode user group w =
     (_ <- mkdir (parent path) _constants.DEFAULT_MKDIR_MODE true true None None ;;
      _ <- write_bytes path content mode user group ;;
      ret true) w).
Proof.
  intros Hinfo.
  assert (Hwrite : forall b : bool,
             fst (write_contents path content mode user group w) = Return b -> b = true).
  { intros b Hb.
    destruct (write_contents path content mode user group w) as [r w'] eqn:Hw.
    simpl in Hb. subst r. apply write_contents_returns in Hw. tauto. }
  assert (Hnever : forall A : Prop,
             fst (write_contents path content mode user group w) = Return false -> A).
  { intros A Hb. apply Hwrite in Hb. discriminate. }
  unfold calls_made.
  rewrite (ensure_contents_bytes (backend := Recording backend)).
  rewrite ensure_contents_bytes. simpl fileinfo. simpl read_bytes. rewrite Hinfo.
  assert (Hiff : forall D : Prop,
             pebble.permissions info = mode /\
             unless_none user (pebble.user info) /\
             unless_none group (pebble.group info) /\ D
             <-> metadata_matches info mode user group = true /\ D).
  { intros D. rewrite metadata_matches_true. tauto. }
  rewrite Hiff. clear Hiff.
  destruct (metadata_matches info mode user group) eqn:Hmeta.
  - destruct (read_bytes path w) as [data|e'] eqn:Hread.
    + destruct (bool_decide (data = content)) eqn:Hdata.
      * apply bool_decide_eq_true in Hdata. subst data. simpl.
        split; [tauto|]. split; [tauto|]. split; [discriminate|].
        intros [[=] | (data & [= <-] & Hne)]. congruence.
      * apply bool_decide_eq_false in Hdata.
        split; [split; [apply Hnever | intros [_ [= ->]]; congruence]|].
        split; [apply Hnever|]. split; [discriminate | reflexivity].
    + simpl. split; [split; [discriminate | intros [_ [=]]]|].
      split; [discriminate|]. split; [intros e _ [= ->]; reflexivity|].
      intros [[=] | (data & [=] & _)].
  - split; [split; [apply Hnever | intros [[=] _]]|].
    split; [apply Hnever|]. split; [discriminate | reflexivity].
Qed.

(** C9. ensure_contents turns its source into bytes before it queries,
    compares or writes anything: bytes are used as they are, a str is
    encoded as UTF-8, and an object with a read method stands for what its
    read returns.  The bytes of a str are its UTF-8 encoding: they are the
    one sequence of bytes that decodes, by the table of the standard, to
    the str (an ASCII str is its own bytes), and there are such bytes
    exactly when no code point of the str is a lone surrogate.  A source
    that cannot be encoded raises UnicodeEncodeError at its first such code
    point and leaves the filesystem untouched. *)
Theorem ensure_contents_normalizes_source path mode user group (w : W) :
  (forall b, _as_bytes (Bytes b) = Return b) /\
  (forall s, _as_bytes (Str s) = encode s) /\
  (forall s, Forall (fun c => 0 <= c < 128) s -> _as_bytes (Str s) = Return (map byte_of_Z s)) /\
  (forall read, _as_bytes (IO read) = _as_bytes read) /\
  (forall source,
      ensure_contents path source mode user group w =
      match _as_bytes source with
      | Return content => ensure_contents path (Bytes content) mode user group w
      | Raise e => (Raise e, w)
      end) /\
  (forall s,
      ensure_contents path (Str s) mode user group w =
      match encode s with
      | Return content => ensure_contents path (Bytes content) mode user group w
      | Raise e => (Raise e, w)
      end) /\
  (forall read,
      ensure_contents path (IO read) mode user group w =
      ensure_contents path read mode user group w) /\
  (forall s content, _as_bytes (Str s) = Return content <-> utf8_decode content = Some s) /\
  (forall s, (exists content, _as_bytes (Str s) = Return content) <-> Forall scalar_value s) /\
  (forall s content,
      utf8_decode content = Some s ->
      ensure_contents path (Str s) mode user group w
      = ensure_contents path (Bytes content) mode user group w) /\
  (forall before c after,
      Forall scalar_value before ->
      ~ scalar_value c ->
      ensure_contents path (Str (before ++ c :: after)) mode user group w
      = (Raise (UnicodeEncodeError c), w)).
Proof.
  assert (Hraise : forall before c after,
             Forall scalar_value before -> ~ scalar_value c ->
             encode (before ++ c :: after) = Raise (UnicodeEncodeError c)).
  { intros before c after Hbefore Hc.
    exact (proj2 (encode_decode _) c before after eq_refl Hbefore Hc). }
  repeat apply conj; intros;
    try first [reflexivity | apply ensure_contents_as_bytes | apply encode_ascii; assumption].
  - apply encode_returns_iff.
  - split.
    + intros [content Hcontent]. simpl in Hcontent.
      destruct (decide (Forall scalar_value s)) as [|Hnot]; [assumption|].
      apply first_not_scalar in Hnot as (before & c & after & -> & Hbefore & Hc).
      rewrite (Hraise before c after Hbefore Hc) in Hcontent. discriminate.
    + intros Hscalar. destruct (proj1 (encode_decode s) Hscalar) as (content & Hcontent & _).
      exists content. exact Hcontent.
  - rewrite ensure_contents_as_bytes. simpl.
    rewrite (proj2 (encode_returns_iff s content)) by assumption. reflexivity.
  - rewrite ensure_contents_as_bytes. simpl. rewrite Hraise by assumption. reflexivity.
Qed.

End EnsureContentsProperties.

Section EnsureContentsTwice.
Context {P W : Type} {backend : PathProtocol P W} {lawful : WriteThenRead backend}.

Lemma up_to_date_unchanged path content mode user group (w : W) :
  up_to_date path content mode user group w ->
  ensure_contents path (Bytes content) mode user group w = (Return false, w).
Proof.
  intros (info & Hinfo & Hmeta & Hread).
  rewrite ensure_contents_bytes, Hinfo, Hmeta, Hread, bool_decide_eq_true_2; reflexivity.
Qed.

Lemma written_up_to_date path content mode user group (w w' : W) :
  0 <= mode <= 511 ->
  write_contents path content mode user group w = (Return true, w') ->
  up_to_date path content mode user group w'.
Proof.
  intros Hmode Hw. apply write_contents_returns in Hw as (_ & w1 & n & _ & Hwrite).
  destruct (written_fileinfo _ _ _ _ _ _ _ _ Hmode Hwrite) as (info & Hinfo & Hmeta).
  exists info. repeat split; [exact Hinfo | exact Hmeta |].
  exact (written_read_bytes _ _ _ _ _ _ _ _ Hwrite).
Qed.

(** C1, as the code has it. On a backend that keeps what it writes
    ([WriteThenRead]: after a write_bytes that returned, the metadata query
    reports the written mode, owner and group, and read_bytes returns the
    written bytes) and for a mode within the permission bits, 0 to 0o777:
    when ensure_contents(P, C, mode, user, group) returns, a second call
    with the same arguments returns False and leaves the filesystem as it
    is, and reading P returns exactly C.  The first call returns False
    when P already had that mode, owner, group and content, and True
    otherwise. *)
Theorem ensure_contents_twice path content mode user group (w w1 : W) (b : bool) :
  0 <= mode <= 511 ->
  ensure_contents path (Bytes content) mode user group w = (Return b, w1) ->
  ensure_contents path (Bytes content) mode user group w1 = (Return false, w1) /\
  read_bytes path w1 = Return content /\
  (b = false <-> up_to_date path content mode user group w).
Proof.
  intros Hmode Hfirst.
  assert (Hcases : (b = false /\ w1 = w /\ up_to_date path content mode user group w) \/
                   (b = true /\ ~ up_to_date path content mode user group w /\
                    up_to_date path content mode user group w1)).
  { rewrite ensure_contents_bytes in Hfirst.
    assert (Hwritten : write_contents path content mode user group w = (Return b, w1) ->
                       b = true /\ up_to_date path content mode user group w1).
    { intros Hw. destruct (write_contents_returns _ _ _ _ _ _ _ _ Hw) as [-> _].
      split; [reflexivity | exact (written_up_to_date _ _ _ _ _ _ _ Hmode Hw)]. }
    destruct (fileinfo path w) as [info|e] eqn:Hinfo.
    - destruct (metadata_matches info mode user group) eqn:Hmeta.
      + destruct (read_bytes path w) as [data|e] eqn:Hread; [|discriminate].
        destruct (bool_decide (data = content)) eqn:Hdata.
        * apply bool_decide_eq_true in Hdata. subst data.
          injection Hfirst as <- <-. left. repeat split. exists info. auto.
        * apply bool_decide_eq_false in Hdata. right.
          destruct (Hwritten Hfirst) as [-> Hnow]. repeat split; [|exact Hnow].
          intros (info' & Hinfo' & _ & Hread'). congruence.
      + right. destruct (Hwritten Hfirst) as [-> Hnow]. repeat split; [|exact Hnow].
        intros (info' & Hinfo' & Hmeta' & _). congruence.
    - destruct (is_FileNotFoundError e); [|discriminate].
      right. destruct (Hwritten Hfirst) as [-> Hnow]. repeat split; [|exact Hnow].
      intros (info' & Hinfo' & _). congruence. }
  destruct Hcases as [(-> & -> & Hup) | (-> & Hnot & Hup)].
  - split; [exact (up_to_date_unchanged _ _ _ _ _ _ Hup)|].
    split; [destruct Hup as (_ & _ & _ & Hread); exact Hread | tauto].
  - split; [exact (up_to_date_unchanged _ _ _ _ _ _ Hup)|].
    split; [destruct Hup as (_ & _ & _ & Hread); exact Hread|].
    split; [discriminate | intros Hup'; contradiction].
Qed.

End EnsureContentsTwice.

(** ** The local filesystem *)

Lemma resolve_snoc n target cur rest c :
  Local.resolve n target cur (rest ++ [c]) =
  match Local.resolve n target cur rest with
  | Raise e => Raise e
  | Return node =>
      if Local.is_directory node then
        match n !! (cur ++ rest ++ [c])%list with
        | None => Local.not_found target
        | Some x => Return x
        end
      else Local.not_a_directory target
  end.
Proof.
  revert cur. induction rest as [|c0 rest IH]; intros cur; simpl.
  - destruct (n !! cur) as [node|]; [|reflexivity].
    destruct (Local.is_directory node); reflexivity.
  - destruct (n !! cur) as [node|]; [|reflexivity].
    destruct (Local.is_directory node); [|reflexivity].
    rewrite IH, <- app_assoc. reflexivity.
Qed.

Lemma resolve_agree n n' target cur rest :
  (forall k, (length k <= length cur + length rest)%nat -> n !! k = n' !! k) ->
  Local.resolve n target cur rest = Local.resolve n' target cur rest.
Proof.
  revert cur. induction rest as [|c rest IH]; intros cur Hagree; simpl.
  - rewrite (Hagree cur) by lia. reflexivity.
  - rewrite (Hagree cur) by lia. destruct (n' !! cur) as [node|]; [|reflexivity].
    destruct (Local.is_directory node); [|reflexivity].
    apply IH. intros k Hk. apply Hagree. rewrite length_app in Hk. simpl in *. lia.
Qed.

Lemma resolve_target n target target' cur rest x :
  Local.resolve n target cur rest = Return x ->
  Local.resolve n target' cur rest = Return x.
Proof.
  revert cur. induction rest as [|c rest IH]; intros cur; simpl.
  - destruct (n !! cur); [auto | discriminate].
  - destruct (n !! cur) as [node|]; [|discriminate].
    destruct (Local.is_directory node); [apply IH | discriminate].
Qed.

Lemma parent_length (p : Local.path) : p <> [] -> S (length (Local.parent p)) = length p.
Proof.
  intros Hp. rewrite (app_removelast_last "" Hp) at 2.
  rewrite length_app. unfold Local.parent. simpl. lia.
Qed.

(** Resolving [p] is resolving its parent and looking [p] up in it. *)
Lemma stat_step n (p : Local.path) :
  p <> [] ->
  Local.resolve n p [] p =
  match Local.resolve n p [] (Local.parent p) with
  | Raise e => Raise e
  | Return node =>
      if Local.is_directory node then
        match n !! p with
        | None => Local.not_found p
        | Some x => Return x
        end
      else Local.not_a_directory p
  end.
Proof.
  intros Hp. pose proof (app_removelast_last "" Hp) as Hsplit.
  fold (Local.parent p) in Hsplit.
  transitivity (Local.resolve n p [] (Local.parent p ++ [List.last p ""])).
  - rewrite <- Hsplit. reflexivity.
  - rewrite resolve_snoc. simpl. rewrite <- Hsplit. reflexivity.
Qed.

Lemma resolve_parent_agree n n' (p : Local.path) :
  p <> [] ->
  (forall k, (length k < length p)%nat -> n !! k = n' !! k) ->
  Local.resolve n p [] (Local.parent p) = Local.resolve n' p [] (Local.parent p).
Proof.
  intros Hp Hagree. apply resolve_agree. intros k Hk. apply Hagree.
  apply parent_length in Hp. simpl in Hk. lia.
Qed.

(** What [stat] finds at [p] once the node at [p] has been set to [o]
    (inserted or deleted), provided the way to [p] was open. *)
Lemma stat_after_set (p : Local.path) (o : option Local.Node) fs n' :
  n' !! p = o ->
  (forall k, (length k < length p)%nat -> Local.nodes fs !! k = n' !! k) ->
  (p = [] \/ exists m, Local.resolve (Local.nodes fs) p [] (Local.parent p)
                       = Return (Local.Directory m)) ->
  Local.stat p (Local.with_nodes fs n') =
  match o with
  | Some x => Return x
  | None => Local.not_found p
  end.
Proof.
  intros Hset Hagree Hopen. unfold Local.stat. simpl.
  destruct p as [|c p'] eqn:Hp.
  - simpl. rewrite Hset. reflexivity.
  - rewrite <- Hp in *. assert (Hne : p <> []) by (subst p; discriminate).
    destruct Hopen as [-> | [m Hm]]; [contradiction|].
    rewrite stat_step by exact Hne.
    rewrite <- (resolve_parent_agree _ _ _ Hne Hagree), Hm, Hset. reflexivity.
Qed.

(** Where [stat] finds a node at [p], the way to [p] is open. *)
Lemma stat_found_open (p : Local.path) fs x :
  Local.stat p fs = Return x ->
  p = [] \/ exists m, Local.resolve (Local.nodes fs) p [] (Local.parent p)
                      = Return (Local.Directory m).
Proof.
  intros Hstat. destruct p as [|c p'] eqn:Hp; [left; reflexivity | right].
  rewrite <- Hp in *. assert (Hne : p <> []) by (subst p; discriminate).
  unfold Local.stat in Hstat. rewrite stat_step in Hstat by exact Hne.
  destruct (Local.resolve (Local.nodes fs) p [] (Local.parent p)) as [node|e];
    [|discriminate].
  destruct node as [m d|m|m]; try discriminate. exists m. reflexivity.
Qed.

Lemma stat_replaced (p : Local.path) fs x y :
  Local.stat p fs = Return x ->
  Local.stat p (Local.with_nodes fs (<[p := y]> (Local.nodes fs))) = Return y.
Proof.
  intros Hstat. apply (stat_after_set p (Some y)).
  - apply lookup_insert_eq.
  - intros k Hk. symmetry. apply lookup_insert_ne. intros <-. lia.
  - exact (stat_found_open _ _ _ Hstat).
Qed.

Lemma stat_created (p : Local.path) fs m y :
  p <> [] ->
  Local.stat (Local.parent p) fs = Return (Local.Directory m) ->
  Local.stat p (Local.with_nodes fs (<[p := y]> (Local.nodes fs))) = Return y.
Proof.
  intros Hp Hparent. apply (stat_after_set p (Some y)).
  - apply lookup_insert_eq.
  - intros k Hk. symmetry. apply lookup_insert_ne. intros <-. lia.
  - right. exists m. exact (resolve_target _ _ _ _ _ _ Hparent).
Qed.

Lemma stat_deleted (p : Local.path) fs x :
  Local.stat p fs = Return x ->
  Local.stat p (Local.with_nodes fs (delete p (Local.nodes fs))) = Local.not_found p.
Proof.
  intros Hstat. apply (stat_after_set p None).
  - apply lookup_delete_eq.
  - intros k Hk. symmetry. apply lookup_delete_ne. intros <-. lia.
  - exact (stat_found_open _ _ _ Hstat).
Qed.

(** What [stat] raises: not-found or not-a-directory, for the path asked. *)
Lemma resolve_raises n target cur rest x :
  Local.resolve n target cur rest = Raise x ->
  x = FileNotFoundError errno.ENOENT "No such file or directory" (Local.as_posix target) None \/
  x = NotADirectoryError errno.ENOTDIR "Not a directory" (Local.as_posix target) None.
Proof.
  revert cur. induction rest as [|c rest IH]; intros cur; simpl.
  - destruct (n !! cur); [discriminate|]. intros [= <-]. left. reflexivity.
  - destruct (n !! cur) as [node|]; [|intros [= <-]; left; reflexivity].
    destruct (Local.is_directory node); [apply IH|]. intros [= <-]. right. reflexivity.
Qed.

Lemma stat_raises (p : Local.path) fs x :
  Local.stat p fs = Raise x ->
  x = FileNotFoundError errno.ENOENT "No such file or directory" (Local.as_posix p) None \/
  x = NotADirectoryError errno.ENOTDIR "Not a directory" (Local.as_posix p) None.
Proof. apply resolve_raises. Qed.

(** A path that its parent directory does not hold is not found. *)
Lemma stat_absent_in_directory (p : Local.path) fs m :
  p <> [] ->
  Local.stat (Local.parent p) fs = Return (Local.Directory m) ->
  Local.nodes fs !! p = None ->
  Local.stat p fs = Local.not_found p.
Proof.
  intros Hp Hparent Hnone. unfold Local.stat in *. rewrite (stat_step _ _ Hp).
  rewrite (resolve_target _ _ p _ _ _ Hparent). simpl. rewrite Hnone. reflexivity.
Qed.

Lemma resolve_below_non_directory n target target' cur q below node :
  below <> [] ->
  Local.resolve n target' cur q = Return node ->
  Local.is_directory node = false ->
  Local.resolve n target cur (q ++ below) = Local.not_a_directory target.
Proof.
  intros Hbelow. revert cur. induction q as [|c q IH]; intros cur; simpl.
  - destruct (n !! cur) as [x|] eqn:Hcur; [|discriminate]. intros [= ->] Hkind.
    destruct below; [contradiction|]. simpl. rewrite Hcur, Hkind. reflexivity.
  - destruct (n !! cur) as [x|]; [|discriminate].
    destruct (Local.is_directory x); [apply IH | discriminate].
Qed.

(** A path below a node that is no directory: looking it up raises
    not-a-directory. *)
Lemma stat_below_non_directory (q below : Local.path) fs node :
  below <> [] ->
  Local.stat q fs = Return node ->
  Local.is_directory node = false ->
  Local.stat (q ++ below) fs = Local.not_a_directory (q ++ below).
Proof. intros Hbelow Hq Hkind. exact (resolve_below_non_directory _ _ _ _ _ _ _ Hbelow Hq Hkind). Qed.

(** After a write that returned, [stat] finds a file with the data, the
    permission bits of the mode and, where given, the owner and the group
    that were written. *)
Lemma write_bytes_stat (p : Local.path) data mode user group fs n fs' :
  Local.write_bytes p data mode user group fs = (Return n, fs') ->
  exists keep_user keep_group,
    Local.stat p fs'
    = Return (Local.File (Local.new_meta (Z.land mode 4095) user group keep_user keep_group)
                data).
Proof.
  unfold Local.write_bytes, Local.written, Local.chmod_bits.
  destruct (Local.lookup_user_group user group fs); [|discriminate].
  destruct ((mode <? -2147483648) || (2147483647 <? mode));
    destruct (Local.stat p fs) as [[old olddata|m|m]|e] eqn:Hstat; try discriminate.
  - destruct (is_FileNotFoundError e); [|discriminate].
    destruct (Local.stat (Local.parent p) fs) as [[m d|m|m]|e']; discriminate.
  - intros [= <- <-]. exists (Local.user old), (Local.group old).
    exact (stat_replaced _ _ _ _ Hstat).
  - destruct (is_FileNotFoundError e); [|discriminate].
    destruct (Local.stat (Local.parent p) fs) as [[m d|m|m]|e'] eqn:Hparent; try discriminate.
    intros [= <- <-]. exists (Local.process_user fs), (Local.process_group fs).
    apply (stat_created _ _ m); [|exact Hparent].
    intros ->. simpl in Hparent. congruence.
Qed.

Lemma permission_bits_land (mode : Z) : 0 <= mode <= 4095 -> Z.land mode 4095 = mode.
Proof.
  intros Hmode. change 4095 with (Z.ones 12). rewrite Z.land_ones by lia.
  apply Z.mod_small. change (2 ^ 12) with 4096. lia.
Qed.

Lemma none_or_equal_default desired keep :
  none_or_equal desired (Some (default keep desired)) = true.
Proof.
  destruct desired; simpl; [apply bool_decide_eq_true_2|]; reflexivity.
Qed.

#[global] Instance LocalPath_lawful : WriteThenRead LocalPath.
Proof.
  split.
  - intros path data mode user group w n w' Hmode Hwrite.
    apply write_bytes_stat in Hwrite as (keep_user & keep_group & Hstat); simpl.
    unfold Local.from_pathlib_path. rewrite Hstat. eexists. split; [reflexivity|].
    unfold metadata_matches. simpl.
    rewrite (permission_bits_land mode), Z.eqb_refl, !none_or_equal_default by lia.
    reflexivity.
  - intros path data mode user group w n w' Hwrite.
    apply write_bytes_stat in Hwrite as (keep_user & keep_group & Hstat); simpl.
    unfold Local.read_bytes. rewrite Hstat. reflexivity.
Qed.

(** ** remove_path *)

Section RemovePathProperties.
Context {C R : Type} {container : Container C R}.

(** The adapter on each reply of the protocol. *)
Lemma remove_container_path_reply (cp : ContainerPath C) (recursive : bool) (r : R) :
  _remove_container_path cp recursive r =
  match Container_remove_path (_container cp) (_path cp) recursive r with
  | (None, r') => (Return tt, r')
  | (Some e, r') =>
      (if is_generic_file_error_with "directory not empty" e
       then Raise (OSError errno.ENOTEMPTY "Directory not empty" (repr cp) (Some e))
       else
         match e with
         | pebble.PathError kind _ =>
             if String.eqb kind "not-found"
             then Raise (FileNotFoundError errno.ENOENT "No such file or directory"
                           (repr cp) (Some e))
             else if String.eqb kind "permission-denied"
             then Raise (PermissionError errno.EPERM "Operation not permitted"
                           (repr cp) (Some e))
             else Raise (PebbleError e)
         | _ => Raise (PebbleError e)
         end, r')
  end.
Proof.
  unfold _remove_container_path.
  destruct (Container_remove_path _ _ _ r) as [[e|] r']; [|reflexivity].
  destruct e as [kind message| | | |]; try reflexivity.
  unfold bind, lift, raise. rewrite raise_if_matches_directory_not_empty_eq.
  destruct (is_generic_file_error_with "directory not empty" _); [reflexivity|].
  unfold _errors.raise_if_matches_file_not_found, _errors.raise_if_matches_permission,
    _errors.Permission.matches.
  destruct (String.eqb kind "not-found"); [reflexivity|].
  destruct (String.eqb kind "permission-denied"); reflexivity.
Qed.

(** C2, as the code has it. For a path P that does not exist,
    remove_path(P, recursive=True) on the local backend returns and leaves
    the filesystem as it was.  The remote adapter makes the one
    remove-path call of the protocol and returns when that call does; it
    does not itself suppress anything: a not-found reply is raised as
    FileNotFoundError whether recursive is true or not. *)
Theorem remove_path_recursive_absent (p : Local.path) (cp : ContainerPath C)
    (fs : Local.FS) (r : R) :
  (Local.exists_ p fs = false ->
   remove_path (C := C) (StrPath p) true (fs, r) = (Return tt, (fs, r))) /\
  (forall r',
      Container_remove_path (_container cp) (_path cp) true r = (None, r') ->
      remove_path (RemotePath cp) true (fs, r) = (Return tt, (fs, r'))) /\
  (forall recursive message r',
      Container_remove_path (_container cp) (_path cp) recursive r
        = (Some (pebble.PathError "not-found" message), r') ->
      remove_path (RemotePath cp) recursive (fs, r)
        = (Raise (FileNotFoundError errno.ENOENT "No such file or directory" (repr cp)
                    (Some (pebble.PathError "not-found" message))),
           (fs, r'))).
Proof.
  split; [|split].
  - intros Habsent. unfold remove_path, _remove_pathlib_path. simpl.
    rewrite Habsent. reflexivity.
  - intros r' Hreply. unfold remove_path. simpl.
    rewrite remove_container_path_reply, Hreply. reflexivity.
  - intros recursive message r' Hreply. unfold remove_path. simpl.
    rewrite remove_container_path_reply, Hreply. reflexivity.
Qed.

(** C5, as the code has it. remove_path(P, recursive=False) on the local
    backend, for P other than the top directory: a directory that has
    entries is left in place and the call fails with directory-not-empty;
    an empty directory and a regular file are removed.  A path that does
    not exist fails with what looking it up raises: not-found when its
    parent is a directory that does not hold it, not-a-directory when it
    lies below a node that is no directory.  The top directory is in use
    and the call fails with OSError(EBUSY).  On the remote backend the
    outcome is that of the remove-path call: its success is success, its
    directory-not-empty reply is raised as OSError(ENOTEMPTY) and its
    not-found reply as FileNotFoundError. *)
Theorem remove_path_not_recursive (p : Local.path) (cp : ContainerPath C)
    (fs : Local.FS) (r : R) :
  (forall m,
      p <> [] ->
      Local.stat p fs = Return (Local.Directory m) ->
      ~ Local.empty_dir p (Local.nodes fs) ->
      remove_path (C := C) (StrPath p) false (fs, r)
      = (Raise (OSError errno.ENOTEMPTY "Directory not empty" (Local.as_posix p) None),
         (fs, r))) /\
  (forall m,
      p <> [] ->
      Local.stat p fs = Return (Local.Directory m) ->
      Local.empty_dir p (Local.nodes fs) ->
      remove_path (C := C) (StrPath p) false (fs, r)
      = (Return tt, (Local.with_nodes fs (delete p (Local.nodes fs)), r)) /\
      Local.exists_ p (Local.with_nodes fs (delete p (Local.nodes fs))) = false) /\
  (forall m data,
      Local.stat p fs = Return (Local.File m data) ->
      remove_path (C := C) (StrPath p) false (fs, r)
      = (Return tt, (Local.with_nodes fs (delete p (Local.nodes fs)), r)) /\
      Local.exists_ p (Local.with_nodes fs (delete p (Local.nodes fs))) = false) /\
  (Local.exists_ p fs = false ->
   exists x,
     Local.stat p fs = Raise x /\
     remove_path (C := C) (StrPath p) false (fs, r) = (Raise x, (fs, r)) /\
     (x = FileNotFoundError errno.ENOENT "No such file or directory" (Local.as_posix p) None \/
      x = NotADirectoryError errno.ENOTDIR "Not a directory" (Local.as_posix p) None)) /\
  (forall m,
      p <> [] ->
      Local.stat (Local.parent p) fs = Return (Local.Directory m) ->
      Local.nodes fs !! p = None ->
      remove_path (C := C) (StrPath p) false (fs, r)
      = (Raise (FileNotFoundError errno.ENOENT "No such file or directory"
                  (Local.as_posix p) None),
         (fs, r))) /\
  (forall q below node,
      p = (q ++ below)%list ->
      below <> [] ->
      Local.stat q fs = Return node ->
      Local.is_directory node = false ->
      remove_path (C := C) (StrPath p) false (fs, r)
      = (Raise (NotADirectoryError errno.ENOTDIR "Not a directory" (Local.as_posix p) None),
         (fs, r))) /\
  (forall m,
      p = [] ->
      Local.stat p fs = Return (Local.Directory m) ->
      remove_path (C := C) (StrPath p) false (fs, r)
      = (Raise (OSError errno.EBUSY "Device or resource busy" "/" None), (fs, r))) /\
  (forall r',
      Container_remove_path (_container cp) (_path cp) false r = (None, r') ->
      remove_path (RemotePath cp) false (fs, r) = (Return tt, (fs, r'))) /\
  (forall message r',
      Container_remove_path (_container cp) (_path cp) false r
        = (Some (pebble.PathError "generic-file-error" message), r') ->
      has_substring "directory not empty" message ->
      remove_path (RemotePath cp) false (fs, r)
      = (Raise (OSError errno.ENOTEMPTY "Directory not empty" (repr cp)
                  (Some (pebble.PathError "generic-file-error" message))),
         (fs, r'))) /\
  (forall message r',
      Container_remove_path (_container cp) (_path cp) false r
        = (Some (pebble.PathError "not-found" message), r') ->
      remove_path (RemotePath cp) false (fs, r)
      = (Raise (FileNotFoundError errno.ENOENT "No such file or directory" (repr cp)
                  (Some (pebble.PathError "not-found" message))),
         (fs, r'))).
Proof.
  assert (Hraises : forall x,
             Local.stat p fs = Raise x ->
             remove_path (C := C) (StrPath p) false (fs, r) = (Raise x, (fs, r))).
  { intros x Hstat. unfold remove_path, _remove_pathlib_path, Local.is_dir, Local.unlink.
    simpl. rewrite Hstat. reflexivity. }
  repeat apply conj.
  - intros m Hp Hstat Hentries.
    unfold remove_path, _remove_pathlib_path, Local.is_dir, Local.rmdir. simpl.
    rewrite Hstat. simpl. destruct p; [contradiction|].
    destruct (decide (Local.empty_dir _ (Local.nodes fs))); [contradiction | reflexivity].
  - intros m Hp Hstat Hempty.
    unfold remove_path, _remove_pathlib_path, Local.is_dir, Local.rmdir. simpl.
    rewrite Hstat. simpl. destruct p as [|c p']; [contradiction|].
    destruct (decide (Local.empty_dir _ (Local.nodes fs))); [|contradiction].
    split; [reflexivity|]. unfold Local.exists_. rewrite (stat_deleted _ _ _ Hstat).
    reflexivity.
  - intros m data Hstat.
    unfold remove_path, _remove_pathlib_path, Local.is_dir, Local.unlink. simpl.
    rewrite Hstat. simpl.
    split; [reflexivity|]. unfold Local.exists_. rewrite (stat_deleted _ _ _ Hstat).
    reflexivity.
  - intros Habsent. unfold Local.exists_ in Habsent.
    destruct (Local.stat p fs) as [node|x] eqn:Hstat; [discriminate|].
    exists x. split; [reflexivity|]. split; [exact (Hraises x eq_refl)|].
    exact (stat_raises _ _ _ Hstat).
  - intros m Hp Hparent Hnone. apply Hraises.
    exact (stat_absent_in_directory _ _ _ Hp Hparent Hnone).
  - intros q below node -> Hbelow Hq Hkind. apply Hraises.
    exact (stat_below_non_directory _ _ _ _ Hbelow Hq Hkind).
  - intros m -> Hstat.
    unfold remove_path, _remove_pathlib_path, Local.is_dir, Local.rmdir. simpl.
    rewrite Hstat. reflexivity.
  - intros r' Hreply. unfold remove_path. simpl.
    rewrite remove_container_path_reply, Hreply. reflexivity.
  - intros message r' Hreply Hsub. unfold remove_path. simpl.
    rewrite remove_container_path_reply, Hreply.
    assert (Hmatch : is_generic_file_error_with "directory not empty"
                       (pebble.PathError "generic-file-error" message) = true).
    { apply is_generic_file_error_with_true. exists message. auto. }
    rewrite Hmatch. reflexivity.
  - intros message r' Hreply. unfold remove_path. simpl.
    rewrite remove_container_path_reply, Hreply. reflexivity.
Qed.

(** C10. For an existing local path that is not a directory,
    remove_path(P, recursive=True) is the unlink of P: it returns, and P is
    gone. *)
Theorem remove_path_recursive_not_a_directory (p : Local.path) (fs : Local.FS) (r : R)
    (node : Local.Node) :
  Local.stat p fs = Return node ->
  Local.is_directory node = false ->
  _remove_pathlib_path p true fs = Local.unlink p fs /\
  remove_path (C := C) (StrPath p) true (fs, r)
  = (Return tt, (Local.with_nodes fs (delete p (Local.nodes fs)), r)) /\
  Local.exists_ p (Local.with_nodes fs (delete p (Local.nodes fs))) = false.
Proof.
  intros Hstat Hkind.
  unfold remove_path, _remove_pathlib_path, Local.exists_, Local.is_dir, Local.unlink. simpl.
  rewrite (stat_deleted _ _ _ Hstat), Hstat, Hkind. simpl.
  destruct node; try discriminate; auto.
Qed.

(** C6, as the code has it. When the remove-path call of the protocol
    fails, the adapter raises: for a path error recognised as
    directory-not-empty, not-found or permission-denied, the shared kind
    (OSError(ENOTEMPTY), FileNotFoundError, PermissionError) raised from the
    protocol error; for any other protocol error, that error itself. *)
Theorem remove_container_path_errors (cp : ContainerPath C) (recursive : bool) (r r' : R)
    (e : pebble.Error) :
  Container_remove_path (_container cp) (_path cp) recursive r = (Some e, r') ->
  exists x,
    _remove_container_path cp recursive r = (Raise x, r') /\
    translated_or_raw (repr cp) e x.
Proof.
  intros Hreply. rewrite remove_container_path_reply, Hreply. unfold translated_or_raw.
  destruct (is_generic_file_error_with "directory not empty" e) eqn:Hnotempty.
  - eexists. split; [reflexivity|]. left.
    apply is_generic_file_error_with_true in Hnotempty. repeat split; auto.
  - apply is_generic_file_error_with_false in Hnotempty.
    destruct e as [kind message| | | |];
      try (eexists; split; [reflexivity|]; do 3 right;
           repeat split; auto; intros; discriminate).
    destruct (String.eqb kind "not-found") eqn:Hnf.
    + apply String.eqb_eq in Hnf. subst kind.
      eexists. split; [reflexivity|]. right; left. repeat split; eauto.
    + destruct (String.eqb kind "permission-denied") eqn:Hperm.
      * apply String.eqb_eq in Hperm. subst kind.
        eexists. split; [reflexivity|]. do 2 right; left. repeat split; eauto.
      * apply String.eqb_neq in Hnf, Hperm.
        eexists. split; [reflexivity|]. do 3 right.
        repeat split; auto; intros m [= -> _]; congruence.
Qed.

End RemovePathProperties.

(** ** with_suffix *)

Section Names.
Local Open Scope nat_scope.
Import PathName.

Lemma append_empty (a : string) : a +:+ "" = a.
Proof. induction a as [|c a IH]; [reflexivity | rewrite append_cons, IH; reflexivity]. Qed.

Lemma append_append (a b c : string) : (a +:+ b) +:+ c = a +:+ (b +:+ c).
Proof.
  induction a as [|x a IH]; [reflexivity | rewrite !append_cons, IH; reflexivity].
Qed.

Lemma length_append (a b : string) :
  String.length (a +:+ b) = String.length a + String.length b.
Proof.
  induction a as [|c a IH]; [reflexivity | rewrite append_cons; simpl; rewrite IH; reflexivity].
Qed.

Lemma substring_append_before (a b : string) :
  String.substring 0 (String.length a) (a +:+ b) = a.
Proof.
  induction a as [|c a IH]; [destruct b; reflexivity|].
  rewrite append_cons. simpl. rewrite IH. reflexivity.
Qed.

Lemma substring_all (b : string) : String.substring 0 (String.length b) b = b.
Proof. induction b as [|c b IH]; [reflexivity | simpl; rewrite IH; reflexivity]. Qed.

Lemma substring_append_after (a b : string) :
  String.substring (String.length a) (String.length b) (a +:+ b) = b.
Proof.
  induction a as [|c a IH]; [apply substring_all | rewrite append_cons; simpl; exact IH].
Qed.

Lemma last_dot_append (a b : string) :
  last_dot (a +:+ b) =
  match last_dot b with
  | Some j => Some (String.length a + j)
  | None => last_dot a
  end.
Proof.
  induction a as [|c a IH]; [rewrite append_nil; destruct (last_dot b); reflexivity|].
  rewrite append_cons. simpl. rewrite IH. destruct (last_dot b); reflexivity.
Qed.

Lemma last_dot_none (name : string) :
  last_dot name = None <-> ~ has_substring "." name.
Proof.
  unfold has_substring. induction name as [|c name IH]; simpl.
  - split; [|reflexivity]. intros _ ([|x before] & after & Heq); discriminate.
  - destruct (last_dot name) as [i|].
    + split; [discriminate|]. intros Hno. exfalso.
      assert (Hsome : ~ ~ exists before after, name = before +:+ "." +:+ after)
        by (rewrite <- IH; discriminate).
      apply Hsome. intros (before & after & ->). apply Hno.
      exists (String c before), after. reflexivity.
    + destruct (Ascii.eqb_spec c "."%char) as [->|Hc].
      * split; [discriminate|]. intros Hno. exfalso. apply Hno.
        exists "", name. reflexivity.
      * split; [|reflexivity]. intros _ ([|x before] & after & Heq).
        -- rewrite append_nil in Heq. change ("." +:+ after) with (String "."%char after) in Heq.
           congruence.
        -- rewrite append_cons in Heq. injection Heq as _ Heq.
           apply (proj1 IH eq_refl). eauto.
Qed.

Lemma last_dot_some (name : string) (i : nat) :
  last_dot name = Some i ->
  exists a b,
    name = a +:+ "." +:+ b /\ String.length a = i /\ last_dot b = None.
Proof.
  revert i. induction name as [|c name IH]; intros i; simpl; [discriminate|].
  destruct (last_dot name) as [j|] eqn:Hlast.
  - intros [= <-]. destruct (IH j eq_refl) as (a & b & -> & <- & Hb).
    exists (String c a), b. auto.
  - destruct (Ascii.eqb_spec c "."%char) as [->|Hc]; [|discriminate].
    intros [= <-]. exists "", name. auto.
Qed.

Lemma length_dotted (a b : string) :
  String.length (a +:+ "." +:+ b) = S (String.length a + String.length b).
Proof.
  rewrite !length_append. change (String.length ".") with 1. lia.
Qed.

Lemma suffix_start_dotted (a b : string) :
  last_dot b = None ->
  suffix_start (a +:+ "." +:+ b) =
  if Nat.eqb (String.length b) 0 then None else Some (String.length a).
Proof.
  intros Hb. unfold suffix_start.
  rewrite !last_dot_append, Hb. change (last_dot ".") with (Some 0).
  cbv iota beta. rewrite length_dotted, Nat.add_0_r.
  destruct (Nat.eqb_spec (String.length b) 0) as [Hlen|Hlen].
  - rewrite Hlen, Nat.add_0_r, Nat.eqb_refl. reflexivity.
  - destruct (Nat.eqb_spec (S (String.length a)) (S (String.length a + String.length b)));
      [lia | reflexivity].
Qed.

Lemma length_zero (b : string) : String.length b = 0 <-> b = "".
Proof. destruct b; simpl; split; congruence. Qed.

(** The names with a suffix: something, a ['.'], and a non-empty rest
    without ['.']. *)
Lemma suffix_start_some (a b : string) :
  b <> "" -> ~ has_substring "." b ->
  suffix_start (a +:+ "." +:+ b) = Some (String.length a).
Proof.
  intros Hb Hdot. rewrite suffix_start_dotted by (apply last_dot_none; exact Hdot).
  destruct (Nat.eqb_spec (String.length b) 0) as [Hlen|_]; [|reflexivity].
  apply length_zero in Hlen. contradiction.
Qed.

Lemma suffix_start_split (name : string) (i : nat) :
  suffix_start name = Some i ->
  exists a b,
    name = a +:+ "." +:+ b /\ String.length a = i /\ b <> "" /\ ~ has_substring "." b.
Proof.
  intros Hstart.
  destruct (last_dot name) as [j|] eqn:Hlast;
    [|unfold suffix_start in Hstart; rewrite Hlast in Hstart; discriminate].
  destruct (last_dot_some _ _ Hlast) as (a & b & -> & <- & Hb).
  rewrite (suffix_start_dotted a b Hb) in Hstart.
  destruct (Nat.eqb_spec (String.length b) 0) as [|Hlen]; [discriminate|].
  injection Hstart as <-. exists a, b. repeat split; [|apply last_dot_none; exact Hb].
  intros ->. apply Hlen. reflexivity.
Qed.

(** The names without a suffix: those with no ['.'] and those that end
    with ['.']. *)
Lemma suffix_start_none (name : string) :
  suffix_start name = None <->
  ~ has_substring "." name \/ exists a, name = a +:+ ".".
Proof.
  split.
  - intros Hstart. destruct (last_dot name) as [j|] eqn:Hlast.
    + destruct (last_dot_some _ _ Hlast) as (a & b & -> & <- & Hb).
      rewrite (suffix_start_dotted a b Hb) in Hstart.
      destruct (Nat.eqb_spec (String.length b) 0) as [Hlen|]; [|discriminate].
      apply length_zero in Hlen. subst b. right. exists a. reflexivity.
    + left. apply last_dot_none. exact Hlast.
  - intros [Hno | [a ->]].
    + unfold suffix_start. rewrite (proj2 (last_dot_none name) Hno). reflexivity.
    + change (a +:+ ".") with (a +:+ "." +:+ "").
      rewrite suffix_start_dotted by reflexivity. reflexivity.
Qed.

Lemma stem_with_suffix (a b : string) :
  b <> "" -> ~ has_substring "." b ->
  stem (a +:+ "." +:+ b) = a /\ suffix (a +:+ "." +:+ b) = "." +:+ b.
Proof.
  intros Hb Hdot. unfold stem, suffix. rewrite (suffix_start_some a b Hb Hdot).
  split; [apply substring_append_before|].
  rewrite length_append.
  replace (String.length a + String.length ("." +:+ b) - String.length a)
    with (String.length ("." +:+ b)) by lia.
  apply substring_append_after.
Qed.

(** "Where name == stem + suffix" *)
Lemma stem_suffix (name : string) : name = stem name +:+ suffix name.
Proof.
  destruct (suffix_start name) as [i|] eqn:Hstart.
  - destruct (suffix_start_split _ _ Hstart) as (a & b & -> & _ & Hb & Hdot).
    destruct (stem_with_suffix a b Hb Hdot) as [-> ->]. reflexivity.
  - unfold stem, suffix. rewrite Hstart, append_empty. reflexivity.
Qed.

(** A valid suffix takes the place of the last suffix of the name. *)
Lemma with_suffix_stem (name sfx : string) :
  sfx = "" \/ (exists rest, sfx = "." +:+ rest) ->
  with_suffix name sfx = Return (stem name +:+ sfx).
Proof.
  intros Hvalid. unfold with_suffix, stem.
  assert (Hok : String.eqb sfx "" || String.prefix "." sfx = true).
  { destruct Hvalid as [-> | Hdot]; [reflexivity|].
    apply orb_true_iff. right. apply prefix_true. exact Hdot. }
  rewrite Hok. destruct (suffix_start name); reflexivity.
Qed.

End Names.

(** C8, as the docstrings have it. P.with_suffix('.bak').with_suffix('')
    is P with its name replaced by its stem, that is, the name without its
    last suffix.  with_suffix('') gives the stem.  with_suffix of a suffix
    that starts with '.' appends it when the name has no '.' or ends with
    '.', and otherwise puts it in place of the last '.' and what follows. *)
Theorem with_suffix_bak_then_empty (name : string) :
  (exists backup,
      PathName.with_suffix name ".bak" = Return backup /\
      PathName.with_suffix backup "" = Return (PathName.stem name)) /\
  PathName.with_suffix name "" = Return (PathName.stem name) /\
  name = PathName.stem name +:+ PathName.suffix name /\
  (forall rest,
      ~ has_substring "." name \/ (exists a, name = a +:+ ".") ->
      PathName.stem name = name /\
      PathName.with_suffix name ("." +:+ rest) = Return (name +:+ "." +:+ rest)) /\
  (forall rest a b,
      name = a +:+ "." +:+ b -> b <> "" -> ~ has_substring "." b ->
      PathName.stem name = a /\
      PathName.with_suffix name ("." +:+ rest) = Return (a +:+ "." +:+ rest)).
Proof.
  assert (Hbak : ~ has_substring "." "bak").
  { rewrite <- contains_true. discriminate. }
  split; [|split; [|split; [|split]]].
  - exists (PathName.stem name +:+ ".bak"). split.
    + apply with_suffix_stem. right. exists "bak". reflexivity.
    + rewrite with_suffix_stem by (left; reflexivity).
      change (PathName.stem name +:+ ".bak") with (PathName.stem name +:+ "." +:+ "bak").
      destruct (stem_with_suffix (PathName.stem name) "bak") as [-> _];
        [discriminate | exact Hbak |].
      rewrite append_empty. reflexivity.
  - rewrite with_suffix_stem by (left; reflexivity). rewrite append_empty. reflexivity.
  - apply stem_suffix.
  - intros rest Hnone. apply suffix_start_none in Hnone.
    assert (Hstem : PathName.stem name = name) by (unfold PathName.stem; rewrite Hnone; reflexivity).
    split; [exact Hstem|].
    rewrite with_suffix_stem by (right; exists rest; reflexivity). rewrite Hstem. reflexivity.
  - intros rest a b -> Hb Hdot.
    destruct (stem_with_suffix a b Hb Hdot) as [Hstem _]. split; [exact Hstem|].
    rewrite with_suffix_stem by (right; exists rest; reflexivity). rewrite Hstem. reflexivity.
Qed.

(** C8 as stated fails for a name that ends with '.': the suffix is
    appended, not put in place of the last '.'. *)
Lemma with_suffix_after_trailing_dot :
  "report." = "report" +:+ "." +:+ "" /\
  PathName.with_suffix "report." ".bak" = Return "report..bak" /\
  PathName.with_suffix "report." ".bak" <> Return ("report" +:+ ".bak").
Proof. repeat split. discriminate. Qed.

(* ===================================================================== *)
(** * The properties on a filesystem                                      *)
(* ===================================================================== *)

Import Examples.

(** C1 as stated fails when P is already up to date: the first call
    returns False.  It also fails for a mode beyond the permission bits:
    with 0o10644 the file is written with 0o644, which is never the mode
    asked for, so the second call writes and returns True again. *)
Lemma ensure_contents_first_call_unchanged :
  ensure_contents conf (Bytes hello) 420 None None (fs_conf 420) = (Return false, fs_conf 420) /\
  fst (ensure_contents conf (Bytes hello) 420 None None (fs_conf 420)) <> Return true /\
  ensure_contents conf (Bytes hello) 4516 None None fs_fresh = (Return true, fs_conf 420) /\
  ensure_contents conf (Bytes hello) 4516 None None (fs_conf 420) = (Return true, fs_conf 420).
Proof.
  split; [vm_compute; reflexivity|]. split; [vm_compute; discriminate|].
  split; vm_compute; reflexivity.
Qed.

(** On a filesystem without /etc/app: the first call writes, the second
    changes nothing. *)
Lemma ensure_contents_twice_witness :
  0 <= 420 <= 511 /\
  ensure_contents conf (Bytes hello) 420 None None fs_fresh = (Return true, fs_conf 420) /\
  ensure_contents conf (Bytes hello) 420 None None (fs_conf 420) = (Return false, fs_conf 420) /\
  read_bytes conf (fs_conf 420) = Return hello /\
  (true = false <-> up_to_date conf hello 420 None None fs_fresh).
Proof.
  assert (Hmode : 0 <= 420 <= 511) by lia.
  assert (Hfirst : ensure_contents conf (Bytes hello) 420 None None fs_fresh
                   = (Return true, fs_conf 420)) by (vm_compute; reflexivity).
  split; [exact Hmode|]. split; [exact Hfirst|].
  exact (ensure_contents_twice conf hello 420 None None fs_fresh (fs_conf 420) true
           Hmode Hfirst).
Defined.

(** C3 as stated fails when P is a directory whose metadata matches: the
    call neither returns False nor writes; reading P raises. *)
Lemma ensure_contents_on_directory :
  (exists info, fileinfo ["etc"] fs_fresh = Return info /\ pebble.permissions info = 493) /\
  ensure_contents ["etc"] (Bytes hello) 493 None None fs_fresh
  = (Raise (IsADirectoryError 21 "Is a directory" "/etc" None), fs_fresh).
Proof.
  split; [eexists; split; vm_compute; reflexivity | vm_compute; reflexivity].
Qed.

(** The file is there with mode 0o600; mode 0o644 is asked for. *)
Lemma ensure_contents_existing_witness :
  fileinfo conf (fs_conf 384) = Return (conf_info 384) /\
  ensure_contents conf (Bytes hello) 420 (Some "root") None (fs_conf 384)
  = (Return true, fs_conf 420) /\
  ensure_contents conf (Bytes hello) 384 (Some "root") None (fs_conf 384)
  = (Return false, fs_conf 384) /\
  calls_made conf (Bytes hello) 384 (Some "root") None (fs_conf 384) = [].
Proof.
  assert (Hinfo : fileinfo conf (fs_conf 384) = Return (conf_info 384))
    by (vm_compute; reflexivity).
  split; [exact Hinfo|].
  destruct (ensure_contents_existing conf hello 420 (Some "root") None _ _ Hinfo)
    as (_ & _ & _ & Hwrite).
  destruct (ensure_contents_existing conf hello 384 (Some "root") None _ _ Hinfo)
    as (Hsame & Hquiet & _ & _).
  assert (Hfalse : fst (ensure_contents conf (Bytes hello) 384 (Some "root") None (fs_conf 384))
                   = Return false).
  { apply Hsame. repeat split; try (intros d [= <-]); vm_compute; reflexivity. }
  split; [|split].
  - rewrite Hwrite; [vm_compute; reflexivity | left; vm_compute; reflexivity].
  - destruct (Hquiet Hfalse) as [Hworld _]. revert Hfalse Hworld.
    destruct (ensure_contents conf (Bytes hello) 384 (Some "root") None (fs_conf 384)).
    simpl. intros -> ->. reflexivity.
  - exact (proj2 (Hquiet Hfalse)).
Defined.


(** C2 as stated fails for the remote adapter: a not-found reply to a
    recursive removal is not suppressed, it is raised as FileNotFoundError. *)
Lemma remove_path_recursive_not_suppressed :
  Container_remove_path (Some gone) ["srv"; "gone"] true tt = (Some gone, tt) /\
  remove_path (RemotePath (mkContainerPath (Some gone) ["srv"; "gone"])) true (fs_fresh, tt)
  = (Raise (FileNotFoundError 2 "No such file or directory" "ContainerPath('/srv/gone')"
              (Some gone)),
     (fs_fresh, tt)).
Proof. split; vm_compute; reflexivity. Qed.

(** /srv/gone exists neither locally nor in the container. *)
Lemma remove_path_recursive_absent_witness :
  Local.exists_ ["srv"; "gone"] fs_fresh = false /\
  remove_path (C := string) (StrPath ["srv"; "gone"]) true (fs_fresh, fs_fresh)
  = (Return tt, (fs_fresh, fs_fresh)) /\
  remove_path (RemotePath (mkContainerPath "workload" ["srv"; "gone"])) true
    (fs_fresh, fs_fresh)
  = (Return tt, (fs_fresh, fs_fresh)).
Proof.
  destruct (remove_path_recursive_absent ["srv"; "gone"]
              (mkContainerPath "workload" ["srv"; "gone"]) fs_fresh fs_fresh)
    as (Hlocal & Hremote & _).
  assert (Habsent : Local.exists_ ["srv"; "gone"] fs_fresh = false) by (vm_compute; reflexivity).
  split; [exact Habsent|]. split; [exact (Hlocal Habsent)|].
  apply Hremote. vm_compute. reflexivity.
Defined.

(** C5 as stated fails for a path that does not exist because it lies
    below a regular file: the call fails with not-a-directory, not with
    not-found.  It fails for the top directory too, which is in use. *)
Lemma remove_path_below_a_file :
  Local.exists_ (conf ++ ["x"]) (fs_conf 420) = false /\
  remove_path (C := string) (StrPath (conf ++ ["x"])) false (fs_conf 420, fs_fresh)
  = (Raise (NotADirectoryError 20 "Not a directory" "/etc/app/app.conf/x" None),
     (fs_conf 420, fs_fresh)) /\
  Local.is_dir [] (fs_conf 420) = true /\
  remove_path (C := string) (StrPath []) false (fs_conf 420, fs_fresh)
  = (Raise (OSError 16 "Device or resource busy" "/" None), (fs_conf 420, fs_fresh)).
Proof. repeat split; vm_compute; reflexivity. Qed.

(** /etc with and without entries, /etc/app/app.conf present and absent,
    /etc/app absent from /etc, a path below /etc/app/app.conf, and the top
    directory. *)
Lemma remove_path_not_recursive_witness :
  remove_path (C := string) (StrPath ["etc"]) false (fs_conf 420, fs_fresh)
  = (Raise (OSError 39 "Directory not empty" "/etc" None), (fs_conf 420, fs_fresh)) /\
  remove_path (C := string) (StrPath ["etc"]) false (fs_fresh, fs_fresh)
  = (Return tt,
     (Local.with_nodes fs_fresh (delete ["etc"] (Local.nodes fs_fresh)), fs_fresh)) /\
  fst (remove_path (C := string) (StrPath conf) false (fs_conf 420, fs_fresh)) = Return tt /\
  remove_path (C := string) (StrPath conf) false (fs_fresh, fs_fresh)
  = (Raise (FileNotFoundError 2 "No such file or directory" "/etc/app/app.conf" None),
     (fs_fresh, fs_fresh)) /\
  remove_path (C := string) (StrPath ["etc"; "app"]) false (fs_fresh, fs_fresh)
  = (Raise (FileNotFoundError 2 "No such file or directory" "/etc/app" None),
     (fs_fresh, fs_fresh)) /\
  remove_path (C := string) (StrPath (conf ++ ["x"])) false (fs_conf 420, fs_fresh)
  = (Raise (NotADirectoryError 20 "Not a directory" "/etc/app/app.conf/x" None),
     (fs_conf 420, fs_fresh)) /\
  remove_path (C := string) (StrPath []) false (fs_conf 420, fs_fresh)
  = (Raise (OSError 16 "Device or resource busy" "/" None), (fs_conf 420, fs_fresh)) /\
  fst (remove_path (RemotePath (mkContainerPath "workload" ["etc"])) false
         (fs_fresh, fs_conf 420))
  = Raise (OSError 39 "Directory not empty"
             "ContainerPath('/etc', container=<ops.Container 'workload'>)"
             (Some (pebble.PathError "generic-file-error" "remove /etc: directory not empty"))).
Proof.
  pose (cp := mkContainerPath "workload" ["etc"]).
  destruct (remove_path_not_recursive ["etc"] cp (fs_conf 420) fs_fresh) as (Hfull & _).
  destruct (remove_path_not_recursive ["etc"] cp fs_fresh fs_fresh) as (_ & Hempty & _).
  destruct (remove_path_not_recursive ["etc"] cp fs_fresh (fs_conf 420))
    as (_ & _ & _ & _ & _ & _ & _ & _ & Hremote & _).
  destruct (remove_path_not_recursive conf cp (fs_conf 420) fs_fresh) as (_ & _ & Hfile & _).
  destruct (remove_path_not_recursive conf cp fs_fresh fs_fresh) as (_ & _ & _ & Hgone & _).
  destruct (remove_path_not_recursive ["etc"; "app"] cp fs_fresh fs_fresh)
    as (_ & _ & _ & _ & Hmissing & _).
  destruct (remove_path_not_recursive (conf ++ ["x"]) cp (fs_conf 420) fs_fresh)
    as (_ & _ & _ & _ & _ & Hbelow & _).
  destruct (remove_path_not_recursive [] cp (fs_conf 420) fs_fresh)
    as (_ & _ & _ & _ & _ & _ & Htop & _).
  subst cp.
  split; [|split; [|split; [|split; [|split; [|split; [|split]]]]]].
  - apply (Hfull root_meta); [discriminate | vm_compute; reflexivity|].
    intros Hempty'. apply (Hempty' ["etc"; "app"] (Local.Directory root_meta));
      [vm_compute; reflexivity|].
    split; [exists ["app"]; reflexivity | reflexivity].
  - apply (Hempty root_meta); [discriminate | vm_compute; reflexivity|].
    apply (bool_decide_unpack _). vm_compute. exact I.
  - destruct (Hfile (Local.mkMeta 420 "root" "root") hello) as [-> _];
      [vm_compute; reflexivity | reflexivity].
  - destruct (Hgone ltac:(vm_compute; reflexivity)) as (x & Hstat & Hrun & _).
    rewrite Hrun. f_equal. f_equal. revert Hstat. vm_compute. congruence.
  - apply (Hmissing root_meta); [discriminate | vm_compute; reflexivity..].
  - apply (Hbelow conf ["x"] (Local.File (Local.mkMeta 420 "root" "root") hello));
      [reflexivity | discriminate | vm_compute; reflexivity | reflexivity].
  - apply (Htop root_meta); [reflexivity | vm_compute; reflexivity].
  - rewrite (Hremote "remove /etc: directory not empty" (fs_conf 420)).
    + reflexivity.
    + vm_compute. reflexivity.
    + exists "remove /etc: ", "". reflexivity.
Defined.

(** /etc/app/app.conf, a regular file, removed with recursive=True. *)
Lemma remove_path_recursive_not_a_directory_witness :
  Local.stat conf (fs_conf 420) = Return (Local.File (Local.mkMeta 420 "root" "root") hello) /\
  _remove_pathlib_path conf true (fs_conf 420) = Local.unlink conf (fs_conf 420) /\
  fst (remove_path (C := string) (StrPath conf) true (fs_conf 420, fs_fresh)) = Return tt /\
  Local.exists_ conf (snd (_remove_pathlib_path conf true (fs_conf 420))) = false.
Proof.
  assert (Hstat : Local.stat conf (fs_conf 420)
                  = Return (Local.File (Local.mkMeta 420 "root" "root") hello))
    by (vm_compute; reflexivity).
  split; [exact Hstat|].
  destruct (remove_path_recursive_not_a_directory (C := string) conf (fs_conf 420) fs_fresh
              _ Hstat eq_refl) as (Hunlink & Hremoved & Hgone).
  split; [exact Hunlink|]. split; [rewrite Hremoved; reflexivity|].
  rewrite Hunlink. unfold Local.unlink. rewrite Hstat. exact Hgone.
Defined.

(** C6 as stated fails: a path error that is none of the three recognised
    kinds, and a protocol error that is not a path error, reach the caller
    as they are. *)
Lemma remove_container_path_raises_raw_error :
  _remove_container_path (mkContainerPath (Some busy) ["srv"]) false tt
  = (Raise (PebbleError busy), tt) /\
  is_raw (PebbleError busy) /\
  _remove_container_path
    (mkContainerPath (Some (pebble.APIError 500 "Internal Server Error" "unexpected"))
       ["srv"]) true tt
  = (Raise (PebbleError (pebble.APIError 500 "Internal Server Error" "unexpected")), tt).
Proof. repeat split; vm_compute; reflexivity. Qed.

(** The agent refuses to remove /etc, which has entries. *)
Lemma remove_container_path_errors_witness :
  Container_remove_path "workload" ["etc"] false (fs_conf 420)
  = (Some (pebble.PathError "generic-file-error" "remove /etc: directory not empty"),
     fs_conf 420) /\
  exists x,
    _remove_container_path (mkContainerPath "workload" ["etc"]) false (fs_conf 420)
    = (Raise x, fs_conf 420) /\
    translated_or_raw "ContainerPath('/etc', container=<ops.Container 'workload'>)"
      (pebble.PathError "generic-file-error" "remove /etc: directory not empty") x.
Proof.
  assert (Hreply : Container_remove_path "workload" ["etc"] false (fs_conf 420)
                   = (Some (pebble.PathError "generic-file-error"
                              "remove /etc: directory not empty"), fs_conf 420))
    by (vm_compute; reflexivity).
  split; [exact Hreply|].
  exact (remove_container_path_errors (mkContainerPath "workload" ["etc"]) false
           (fs_conf 420) (fs_conf 420) _ Hreply).
Defined.

(** A reader of "hi" stands for the bytes of "hi"; U+00E9, U+20AC and
    U+1F600 are written as two, three and four bytes; a lone surrogate is
    refused. *)
Lemma ensure_contents_normalizes_source_witness :
  ensure_contents conf (IO (Str [104; 105])) 420 None None fs_fresh
  = ensure_contents conf (Bytes hello) 420 None None fs_fresh /\
  ensure_contents conf (Str [233; 8364; 128512]) 420 None None fs_fresh
  = ensure_contents conf
      (Bytes ["195"%byte; "169"%byte; "226"%byte; "130"%byte; "172"%byte;
              "240"%byte; "159"%byte; "152"%byte; "128"%byte]) 420 None None fs_fresh /\
  ensure_contents conf (Str [104; 55296]) 420 None None fs_fresh
  = (Raise (UnicodeEncodeError 55296), fs_fresh).
Proof.
  destruct (ensure_contents_normalizes_source conf 420 None None fs_fresh)
    as (_ & _ & _ & _ & _ & Hstr & Hio & _ & _ & Hutf8 & Hrefused).
  split; [|split].
  - rewrite Hio, Hstr. reflexivity.
  - apply Hutf8. vm_compute. reflexivity.
  - apply (Hrefused [104] 55296 []).
    + constructor; [unfold scalar_value; lia | constructor].
    + intros [_ Hnot]. apply Hnot. lia.
Defined.

(** 'file exists' in a generic-file-error and in a permission-denied error. *)
Lemma generic_file_error_mapped_by_substring_witness :
  _errors.raise_if_matches_file_exists
    (pebble.PathError "generic-file-error" "mkdir /etc: file exists") "/etc"
  = Raise (FileExistsError 17 "File exists" "/etc"
             (Some (pebble.PathError "generic-file-error" "mkdir /etc: file exists"))) /\
  _errors.raise_if_matches_file_exists
    (pebble.PathError "permission-denied" "mkdir /etc: file exists") "/etc"
  = Return tt.
Proof.
  split.
  - apply (generic_file_error_mapped_by_substring
             (pebble.PathError "generic-file-error" "mkdir /etc: file exists") "/etc").
    exists "mkdir /etc: file exists". split; [reflexivity|].
    exists "mkdir /etc: ", "". reflexivity.
  - apply (generic_file_error_mapped_by_substring
             (pebble.PathError "permission-denied" "mkdir /etc: file exists") "/etc").
    intros (message & [=] & _).
Defined.

(** archive.tar.gz loses its last suffix, .gz. *)
Lemma with_suffix_bak_then_empty_witness :
  PathName.with_suffix "archive.tar.gz" ".bak" = Return "archive.tar.bak" /\
  PathName.with_suffix "archive.tar.bak" "" = Return "archive.tar" /\
  PathName.stem "archive.tar.gz" = "archive.tar".
Proof.
  destruct (with_suffix_bak_then_empty "archive.tar.gz") as ((backup & Hbak & Hempty) & _).
  assert (Hbackup : PathName.with_suffix "archive.tar.gz" ".bak" = Return "archive.tar.bak")
    by reflexivity.
  split; [exact Hbackup|].
  rewrite Hbak in Hbackup. injection Hbackup as ->.
  split; [rewrite Hempty|]; reflexivity.
Defined.

(* ===================================================================== *)
(** * Further properties of the code                                      *)
(* ===================================================================== *)

(** X1. raise_if_matches_file_not_found raises FileNotFoundError, from the
    error, exactly for an API error with code 404 and for a path error of
    kind not-found; for every other error it returns. *)
Theorem raise_if_matches_file_not_found_cases (error : pebble.Error) (msg : string) :
  (_errors.raise_if_matches_file_not_found error msg
   = Raise (FileNotFoundError errno.ENOENT "No such file or directory" msg (Some error))
   <-> (exists status message, error = pebble.APIError 404 status message) \/
       (exists message, error = pebble.PathError "not-found" message)) /\
  (_errors.raise_if_matches_file_not_found error msg = Return tt
   <-> ~ ((exists status message, error = pebble.APIError 404 status message) \/
          (exists message, error = pebble.PathError "not-found" message))).
Proof.
  unfold _errors.raise_if_matches_file_not_found, _errors.raise_file_not_found.
  destruct error as [kind message|code status message|message|message|message].
  - destruct (String.eqb_spec kind "not-found") as [->|Hkind].
    + split; split; try discriminate; eauto. intros Hno. exfalso. apply Hno. eauto.
    + split; split; try discriminate; try reflexivity.
      * intros [(s & m & [=]) | (m & [= -> _])]. congruence.
      * intros _ [(s & m & [=]) | (m & [= -> _])]. congruence.
  - destruct (Z.eqb_spec code 404) as [->|Hcode].
    + split; split; try discriminate; eauto. intros Hno. exfalso. apply Hno. eauto.
    + split; split; try discriminate; try reflexivity.
      * intros [(s & m & [= -> _ _]) | (m & [=])]. congruence.
      * intros _ [(s & m & [= -> _ _]) | (m & [=])]. congruence.
  - split; split; try discriminate; try reflexivity;
      [intros [(s & m & [=]) | (m & [=])] | intros _ [(s & m & [=]) | (m & [=])]].
  - split; split; try discriminate; try reflexivity;
      [intros [(s & m & [=]) | (m & [=])] | intros _ [(s & m & [=]) | (m & [=])]].
  - split; split; try discriminate; try reflexivity;
      [intros [(s & m & [=]) | (m & [=])] | intros _ [(s & m & [=]) | (m & [=])]].
Qed.

(** X2. Permission.matches holds exactly for a path error of kind
    permission-denied, and TooManyLevelsOfSymbolicLinks.matches exactly for
    an API error with code 400 whose message contains 'too many levels of
    symbolic links'. *)
Theorem permission_and_symlink_loop_matches (error : pebble.Error) :
  (_errors.Permission.matches error = true
   <-> exists message, error = pebble.PathError "permission-denied" message) /\
  (_errors.TooManyLevelsOfSymbolicLinks.matches error = true
   <-> exists status message,
         error = pebble.APIError 400 status message /\
         has_substring "too many levels of symbolic links" message).
Proof.
  destruct error as [kind message|code status message|message|message|message]; simpl;
    try (split; split; [discriminate | intros (? & [=]) | discriminate
                        | intros (? & ? & [=] & _)]).
  - split.
    + rewrite String.eqb_eq. split; [intros ->; eauto | intros (m & [= -> _]); reflexivity].
    + split; [discriminate | intros (s & m & [=] & _)].
  - split.
    + split; [discriminate | intros (m & [=])].
    + rewrite andb_true_iff, Z.eqb_eq, contains_true. split.
      * intros [-> Hsub]. eauto.
      * intros (s & m & [= -> _ ->] & Hsub). auto.
Qed.

(** X3. An error of the metadata query other than FileNotFoundError is
    raised by ensure_contents as it is: the filesystem is left as it was, and
    neither mkdir nor write_bytes is called. *)
Theorem ensure_contents_propagates_query_error {P W : Type} {backend : PathProtocol P W}
    (path : P) (content : bytes) (mode : Z) (user group : option string) (w : W)
    (e : Exception) :
  fileinfo path w = Raise e ->
  is_FileNotFoundError e = false ->
  ensure_contents path (Bytes content) mode user group w = (Raise e, w) /\
  calls_made path (Bytes content) mode user group w = [].
Proof.
  intros Hinfo Hother. unfold calls_made.
  rewrite (ensure_contents_bytes (backend := Recording backend)), ensure_contents_bytes.
  simpl fileinfo. rewrite Hinfo, Hother. split; reflexivity.
Qed.

(** /etc/app/app.conf is a file, so nothing can be below it. *)
Lemma ensure_contents_propagates_query_error_witness :
  fileinfo (conf ++ ["x"])%list (fs_conf 420)
  = Raise (NotADirectoryError 20 "Not a directory" "/etc/app/app.conf/x" None) /\
  ensure_contents (conf ++ ["x"])%list (Bytes hello) 420 None None (fs_conf 420)
  = (Raise (NotADirectoryError 20 "Not a directory" "/etc/app/app.conf/x" None), fs_conf 420).
Proof.
  assert (Hinfo : fileinfo (conf ++ ["x"])%list (fs_conf 420)
                  = Raise (NotADirectoryError 20 "Not a directory" "/etc/app/app.conf/x" None))
    by (vm_compute; reflexivity).
  split; [exact Hinfo|].
  exact (proj1 (ensure_contents_propagates_query_error _ hello 420 None None _ _ Hinfo eq_refl)).
Defined.

(** X4. remove_path(P, recursive=True) on an existing local directory
    other than the top directory returns, removes P and every path below
    it, and leaves every other path as it was.  On the top directory it
    removes everything below it and then fails with OSError(EBUSY): the top
    directory stays, empty. *)
Theorem remove_path_recursive_directory (p : Local.path) (fs : Local.FS) (m : Local.Meta) :
  Local.stat p fs = Return (Local.Directory m) ->
  (p <> [] ->
   exists fs',
     _remove_pathlib_path p true fs = (Return tt, fs') /\
     (forall k, p `prefix_of` k -> Local.nodes fs' !! k = None) /\
     (forall k, ~ p `prefix_of` k -> Local.nodes fs' !! k = Local.nodes fs !! k) /\
     Local.exists_ p fs' = false) /\
  (p = [] ->
   exists fs',
     _remove_pathlib_path p true fs
     = (Raise (OSError errno.EBUSY "Device or resource busy" "/" None), fs') /\
     (forall k, k <> [] -> Local.nodes fs' !! k = None) /\
     Local.stat [] fs' = Return (Local.Directory m) /\
     Local.empty_dir [] (Local.nodes fs')).
Proof.
  intros Hstat. split.
  - intros Hp.
    unfold _remove_pathlib_path, Local.exists_, Local.is_dir, Local.rmtree.
    rewrite Hstat. simpl. destruct p as [|c p']; [contradiction|]. clear Hp.
    eexists. split; [reflexivity|]. simpl.
    assert (Hbelow : forall k, (c :: p') `prefix_of` k ->
              filter (fun kv : list string * Local.Node => ~ (c :: p') `prefix_of` kv.1)
                (Local.nodes fs) !! k = None).
    { intros k Hk. apply map_lookup_filter_None. right. intros node _ Hnot. exact (Hnot Hk). }
    assert (Hother : forall k, ~ (c :: p') `prefix_of` k ->
              filter (fun kv : list string * Local.Node => ~ (c :: p') `prefix_of` kv.1)
                (Local.nodes fs) !! k = Local.nodes fs !! k).
    { intros k Hk. destruct (Local.nodes fs !! k) as [node|] eqn:Hnode.
      - apply map_lookup_filter_Some. split; [exact Hnode | exact Hk].
      - apply map_lookup_filter_None. left. exact Hnode. }
    split; [exact Hbelow|]. split; [exact Hother|].
    rewrite (stat_after_set (c :: p') None fs); [reflexivity | | |].
    + apply Hbelow. reflexivity.
    + intros k Hk. symmetry. apply Hother. intros Hpre.
      apply prefix_length in Hpre. lia.
    + exact (stat_found_open _ _ _ Hstat).
  - intros ->.
    unfold _remove_pathlib_path, Local.exists_, Local.is_dir, Local.rmtree.
    rewrite Hstat. simpl. eexists. split; [reflexivity|]. simpl.
    assert (Hroot : Local.nodes fs !! [] = Some (Local.Directory m)).
    { unfold Local.stat in Hstat. simpl in Hstat.
      destruct (Local.nodes fs !! []); [congruence | discriminate]. }
    split; [|split].
    + intros k Hk. apply map_lookup_filter_None. right. intros node _ Hnot. exact (Hk Hnot).
    + assert (Hkept : filter (fun kv : list string * Local.Node => kv.1 = []) (Local.nodes fs)
                        !! [] = Some (Local.Directory m))
        by (apply map_lookup_filter_Some; split; [exact Hroot | reflexivity]).
      unfold Local.stat. simpl. rewrite Hkept. reflexivity.
    + intros k node Hk [_ Hlen]. apply map_lookup_filter_Some in Hk as [_ Hk].
      simpl in Hk. subst k. discriminate.
Qed.

(** /etc goes with all that is below it and / stays; removing / leaves
    nothing but /. *)
Lemma remove_path_recursive_directory_witness :
  Local.stat ["etc"] (fs_conf 420) = Return (Local.Directory root_meta) /\
  (exists fs',
     _remove_pathlib_path ["etc"] true (fs_conf 420) = (Return tt, fs') /\
     Local.nodes fs' !! conf = None /\
     Local.nodes fs' !! [] = Some (Local.Directory root_meta)) /\
  Local.stat [] (fs_conf 420) = Return (Local.Directory root_meta) /\
  (exists fs',
     _remove_pathlib_path [] true (fs_conf 420)
     = (Raise (OSError 16 "Device or resource busy" "/" None), fs') /\
     Local.nodes fs' !! ["etc"] = None).
Proof.
  assert (Hstat : Local.stat ["etc"] (fs_conf 420) = Return (Local.Directory root_meta))
    by (vm_compute; reflexivity).
  assert (Htop : Local.stat [] (fs_conf 420) = Return (Local.Directory root_meta))
    by (vm_compute; reflexivity).
  split; [exact Hstat|]. split; [|split; [exact Htop|]].
  - destruct (proj1 (remove_path_recursive_directory _ _ _ Hstat) ltac:(discriminate))
      as (fs' & Hrun & Hbelow & Hother & _).
    exists fs'. split; [exact Hrun|]. split.
    + apply Hbelow. exists ["app"; "app.conf"]. reflexivity.
    + rewrite Hother; [vm_compute; reflexivity|]. intros [k Hk]. discriminate.
  - destruct (proj2 (remove_path_recursive_directory _ _ _ Htop) eq_refl)
      as (fs' & Hrun & Hbelow & _).
    exists fs'. split; [exact Hrun|]. apply Hbelow. discriminate.
Defined.

(** ** More on the error mapper *)

(** X6. The exception TooManyLevelsOfSymbolicLinks builds is the one its
    matches_exception recognises, and nothing else the module raises or
    builds is taken for it. *)
Theorem symlink_loop_exception_recognised (msg : string) :
  _errors.TooManyLevelsOfSymbolicLinks.matches_exception
    (_errors.TooManyLevelsOfSymbolicLinks.exception msg) = true /\
  _errors.TooManyLevelsOfSymbolicLinks.matches_exception
    (_errors.Permission.exception msg) = false /\
  (forall from_ x,
      (_errors.raise_file_exists (A := unit) msg from_ = Raise x \/
       _errors.raise_file_not_found (A := unit) msg from_ = Raise x \/
       _errors.raise_not_a_directory (A := unit) msg from_ = Raise x) ->
      _errors.TooManyLevelsOfSymbolicLinks.matches_exception x = false) /\
  (forall error x,
      (_errors.raise_if_matches_file_exists error msg = Raise x \/
       _errors.raise_if_matches_file_not_found error msg = Raise x \/
       _errors.raise_if_matches_is_a_directory error msg = Raise x \/
       _errors.raise_if_matches_lookup error msg = Raise x) ->
      _errors.TooManyLevelsOfSymbolicLinks.matches_exception x = false).
Proof.
  split; [reflexivity|]. split; [reflexivity|]. split.
  - intros from_ x [[= <-] | [[= <-] | [= <-]]]; reflexivity.
  - intros error x.
    rewrite raise_if_matches_file_exists_eq, raise_if_matches_is_a_directory_eq,
      raise_if_matches_lookup_eq.
    unfold _errors.raise_if_matches_file_not_found, _errors.raise_file_not_found.
    intros [H | [H | [H | H]]];
      repeat match type of H with
             | context [if ?b then _ else _] => destruct b
             end;
      try discriminate; injection H as <-; reflexivity.
Qed.

(** X7. The mappers of different categories exclude one another: an error
    that raise_if_matches_file_not_found raises for, or that
    Permission.matches, or that TooManyLevelsOfSymbolicLinks.matches, is
    matched by no other mapper.  Within the generic-file-error category the
    substring mappers do overlap: one message can be both 'file exists' and
    'not a directory'. *)
Theorem mapper_categories_exclusive (error : pebble.Error) (msg : string) :
  let not_found := raised (_errors.raise_if_matches_file_not_found error msg) in
  let permission := _errors.Permission.matches error in
  let symlink_loop := _errors.TooManyLevelsOfSymbolicLinks.matches error in
  let generic :=
    raised (_errors.raise_if_matches_file_exists error msg)
    || raised (_errors.raise_if_matches_is_a_directory error msg)
    || raised (_errors.raise_if_matches_lookup error msg)
    || _errors.matches_not_a_directory error in
  (not_found && (permission || symlink_loop || generic) = false) /\
  (permission && (symlink_loop || generic) = false) /\
  (symlink_loop && generic = false) /\
  (exists both,
      raised (_errors.raise_if_matches_file_exists both msg) = true /\
      _errors.matches_not_a_directory both = true).
Proof.
  cbv zeta.
  rewrite raise_if_matches_file_exists_eq, raise_if_matches_is_a_directory_eq,
    raise_if_matches_lookup_eq.
  unfold _errors.raise_if_matches_file_not_found, _errors.raise_file_not_found,
    _errors.matches_not_a_directory, _errors.Permission.matches,
    _errors.TooManyLevelsOfSymbolicLinks.matches, is_generic_file_error_with.
  split; [|split; [|split]].
  - destruct error as [kind message|code status message| | |]; try reflexivity.
    + destruct (String.eqb_spec kind "not-found") as [->|_]; reflexivity.
    + destruct (Z.eqb_spec code 404) as [->|_]; reflexivity.
  - destruct error as [kind message|code status message| | |]; try reflexivity.
    destruct (String.eqb_spec kind "permission-denied") as [->|_]; reflexivity.
  - destruct error as [kind message|code status message| | |]; try reflexivity.
    apply andb_false_r.
  - exists (pebble.PathError "generic-file-error" "mkdir /a/b: file exists, not a directory").
    split; reflexivity.
Qed.

(** ** The calls ensure_contents makes *)

Section EnsureContentsCalls.
Context {P W : Type} {backend : PathProtocol P W}.

(** The steps after the check, on a recording backend: the same outcome and
    filesystem as on the backend itself, with the calls made. *)
Lemma write_contents_recorded path content mode user group (w : W) (log : list (Call P)) :
  @write_contents P (W * list (Call P)) (Recording backend) path content mode user group (w, log)
  = match mkdir (parent path) _constants.DEFAULT_MKDIR_MODE true true None None w with
    | (Raise e, w1) =>
        (Raise e,
         (w1, (log ++ [CallMkdir (parent path) _constants.DEFAULT_MKDIR_MODE true true
                         None None])%list))
    | (Return _, w1) =>
        (fst (write_contents path content mode user group w),
         (snd (write_bytes path content mode user group w1),
          ((log ++ [CallMkdir (parent path) _constants.DEFAULT_MKDIR_MODE true true None None])
           ++ [CallWriteBytes path content mode user group])%list))
    end.
Proof.
  unfold write_contents, bind, ret. simpl.
  destruct (mkdir (parent path) _constants.DEFAULT_MKDIR_MODE true true None None w)
    as [[[]|e] w1]; [|reflexivity].
  simpl. destruct (write_bytes path content mode user group w1) as [[n|e] w2]; reflexivity.
Qed.

(** X8. Whatever the backend and the filesystem, ensure_contents makes no
    call that changes the filesystem, or one mkdir of the parent (with
    parents and exist_ok, the default mode and no owner), or that mkdir
    followed by one write_bytes of the bytes of the source to the path with
    the requested mode and owner.  It returns True only after both calls,
    False only after none, and when the mkdir is the only call the call
    raised. *)
Theorem ensure_contents_call_discipline path source mode user group (w : W) :
  let made := calls_made path source mode user group w in
  let outcome := fst (ensure_contents path source mode user group w) in
  let make_parent :=
    CallMkdir (parent path) _constants.DEFAULT_MKDIR_MODE true true None None in
  (made = [] \/
   made = [make_parent] \/
   exists content,
     _as_bytes source = Return content /\
     made = [make_parent; CallWriteBytes path content mode user group]) /\
  (outcome = Return true -> length made = 2%nat) /\
  (outcome = Return false -> made = []) /\
  (made = [make_parent] -> raised outcome = true).
Proof.
  cbv zeta. unfold calls_made.
  rewrite (ensure_contents_as_bytes (backend := Recording backend)), ensure_contents_as_bytes.
  destruct (_as_bytes source) as [content|e]; simpl;
    [|repeat split; try discriminate; left; reflexivity].
  rewrite (ensure_contents_bytes (backend := Recording backend)), ensure_contents_bytes.
  simpl fileinfo. simpl read_bytes.
  assert (Hsteps :
    let made := snd (snd (@write_contents P (W * list (Call P)) (Recording backend)
                            path content mode user group (w, []))) in
    let outcome := fst (write_contents path content mode user group w) in
    let make_parent :=
      CallMkdir (parent path) _constants.DEFAULT_MKDIR_MODE true true None None in
    (made = [] \/ made = [make_parent] \/
     exists content0, Return content = Return content0 /\
       made = [make_parent; CallWriteBytes path content0 mode user group]) /\
    (outcome = Return true -> length made = 2%nat) /\
    (outcome = Return false -> made = []) /\
    (made = [make_parent] -> raised outcome = true)).
  { cbv zeta. rewrite write_contents_recorded. unfold write_contents, bind, ret.
    destruct (mkdir (parent path) _constants.DEFAULT_MKDIR_MODE true true None None w)
      as [[[]|e] w1]; simpl.
    - destruct (write_bytes path content mode user group w1) as [[n|e] w2]; simpl;
        repeat split; try discriminate; try reflexivity; right; right; eauto.
    - repeat split; try discriminate; try reflexivity. right; left; reflexivity. }
  cbv zeta in Hsteps.
  destruct (fileinfo path w) as [info|e].
  - destruct (metadata_matches info mode user group); [|exact Hsteps].
    destruct (read_bytes path w) as [data|e]; simpl.
    + destruct (bool_decide (data = content)); [|exact Hsteps]. simpl.
      repeat split; try discriminate; left; reflexivity.
    + repeat split; try discriminate; left; reflexivity.
  - destruct (is_FileNotFoundError e); [exact Hsteps|]. simpl.
    repeat split; try discriminate; left; reflexivity.
Qed.

End EnsureContentsCalls.

(** ** More on remove_path *)

(** The removal of a directory tree: it returns and the directory is gone. *)
Lemma remove_path_recursive_directory_steps (p : Local.path) (fs : Local.FS) (m : Local.Meta) :
  p <> [] ->
  Local.stat p fs = Return (Local.Directory m) ->
  exists fs',
    _remove_pathlib_path p true fs = (Return tt, fs') /\
    Local.exists_ p fs' = false.
Proof.
  intros Hp Hstat.
  unfold _remove_pathlib_path, Local.exists_, Local.is_dir, Local.rmtree. rewrite Hstat. simpl.
  destruct p as [|c p']; [contradiction|]. clear Hp.
  eexists. split; [reflexivity|].
  rewrite (stat_after_set (c :: p') None fs); [reflexivity | | |].
  - apply map_lookup_filter_None. right. intros node _ Hnot. apply Hnot. reflexivity.
  - intros k Hk. destruct (Local.nodes fs !! k) as [node|] eqn:Hnode; symmetry.
    + apply map_lookup_filter_Some. split; [exact Hnode|].
      intros Hpre. apply prefix_length in Hpre. simpl in *. lia.
    + apply map_lookup_filter_None. left. exact Hnode.
  - exact (stat_found_open _ _ _ Hstat).
Qed.

(** X9. On the local backend remove_path(P, recursive=True), for P other
    than the top directory, returns whatever is or is not there; afterwards
    P does not exist, and a second call returns too and changes nothing. *)
Theorem remove_path_recursive_idempotent (p : Local.path) (fs : Local.FS) :
  p <> [] ->
  exists fs',
    _remove_pathlib_path p true fs = (Return tt, fs') /\
    Local.exists_ p fs' = false /\
    _remove_pathlib_path p true fs' = (Return tt, fs').
Proof.
  intros Hp.
  assert (Hagain : forall fs', Local.exists_ p fs' = false ->
            _remove_pathlib_path p true fs' = (Return tt, fs')).
  { intros fs' Hgone. unfold _remove_pathlib_path. rewrite Hgone. reflexivity. }
  destruct (Local.stat p fs) as [node|e] eqn:Hstat.
  - destruct (Local.is_directory node) eqn:Hkind.
    + destruct node as [m d|m|m]; try discriminate.
      destruct (remove_path_recursive_directory_steps p fs m Hp Hstat) as (fs' & Hrun & Hgone).
      exists fs'. auto.
    + exists (Local.with_nodes fs (delete p (Local.nodes fs))).
      assert (Hgone : Local.exists_ p (Local.with_nodes fs (delete p (Local.nodes fs))) = false).
      { unfold Local.exists_. rewrite (stat_deleted _ _ _ Hstat). reflexivity. }
      split; [|auto].
      unfold _remove_pathlib_path, Local.exists_, Local.is_dir, Local.unlink.
      rewrite Hstat, Hkind. simpl. destruct node; try discriminate; reflexivity.
  - exists fs. assert (Hgone : Local.exists_ p fs = false)
      by (unfold Local.exists_; rewrite Hstat; reflexivity).
    auto.
Qed.

(** /etc/app/app.conf, /etc and a path that is not there, each removed
    twice. *)
Lemma remove_path_recursive_idempotent_witness :
  (exists fs',
     _remove_pathlib_path conf true (fs_conf 420) = (Return tt, fs') /\
     Local.exists_ conf fs' = false /\
     _remove_pathlib_path conf true fs' = (Return tt, fs')) /\
  (exists fs',
     _remove_pathlib_path ["etc"] true (fs_conf 420) = (Return tt, fs') /\
     Local.exists_ ["etc"] fs' = false /\
     _remove_pathlib_path ["etc"] true fs' = (Return tt, fs')) /\
  (exists fs',
     _remove_pathlib_path ["srv"; "gone"] true (fs_conf 420) = (Return tt, fs') /\
     Local.exists_ ["srv"; "gone"] fs' = false /\
     _remove_pathlib_path ["srv"; "gone"] true fs' = (Return tt, fs')).
Proof.
  split; [|split].
  - exact (remove_path_recursive_idempotent conf (fs_conf 420) ltac:(discriminate)).
  - exact (remove_path_recursive_idempotent ["etc"] (fs_conf 420) ltac:(discriminate)).
  - exact (remove_path_recursive_idempotent ["srv"; "gone"] (fs_conf 420) ltac:(discriminate)).
Defined.

(** X10. remove_path on the local backend touches nothing outside P: every
    path that is not P or below P is as it was; without recursive every
    path other than P is, and a call that raises leaves the whole
    filesystem as it was; the users and groups are as they were.  With
    recursive, the one call that raises is the one on the top directory,
    and it has removed all that was below it. *)
Theorem remove_path_local_frame (p : Local.path) (recursive : bool) (fs : Local.FS) :
  let outcome := fst (_remove_pathlib_path p recursive fs) in
  let fs' := snd (_remove_pathlib_path p recursive fs) in
  (forall k, ~ p `prefix_of` k -> Local.nodes fs' !! k = Local.nodes fs !! k) /\
  (recursive = false -> forall k, k <> p -> Local.nodes fs' !! k = Local.nodes fs !! k) /\
  (Local.users fs' = Local.users fs /\ Local.groups fs' = Local.groups fs) /\
  (recursive = false -> raised outcome = true -> fs' = fs) /\
  (recursive = true -> raised outcome = true ->
   p = [] /\
   outcome = Raise (OSError errno.EBUSY "Device or resource busy" "/" None) /\
   (forall k, k <> [] -> Local.nodes fs' !! k = None) /\
   Local.nodes fs' !! [] = Local.nodes fs !! []).
Proof.
  cbv zeta.
  assert (Hdel : forall k, k <> p -> delete p (Local.nodes fs) !! k = Local.nodes fs !! k)
    by (intros k Hk; apply lookup_delete_ne; congruence).
  assert (Hnotp : forall k, ~ p `prefix_of` k -> k <> p) by (intros k Hk ->; apply Hk; reflexivity).
  assert (Hkeep : forall k, ~ p `prefix_of` k ->
            filter (fun kv : list string * Local.Node => ~ p `prefix_of` kv.1) (Local.nodes fs)
              !! k = Local.nodes fs !! k).
  { intros k Hk. destruct (Local.nodes fs !! k) as [node|] eqn:Hnode.
    - apply map_lookup_filter_Some. split; [exact Hnode | exact Hk].
    - apply map_lookup_filter_None. left. exact Hnode. }
  unfold _remove_pathlib_path, Local.unlink, Local.rmdir, Local.rmtree, Local.is_dir,
    Local.exists_.
  destruct (Local.stat p fs) as [[m d|m|m]|e] eqn:Hstat; destruct recursive; simpl;
    try (repeat split; try discriminate; try reflexivity; auto; fail).
  - (* a directory, removed with all below it *)
    destruct p as [|c p']; simpl.
    + split; [intros k Hk; exfalso; apply Hk; apply prefix_nil|].
      split; [discriminate|]. split; [split; reflexivity|]. split; [discriminate|].
      intros _ _. split; [reflexivity|]. split; [reflexivity|]. split.
      * intros k Hk. apply map_lookup_filter_None. right. intros node _ Hnot. exact (Hk Hnot).
      * destruct (Local.nodes fs !! []) as [node|] eqn:Hroot.
        -- apply map_lookup_filter_Some. split; [exact Hroot | reflexivity].
        -- apply map_lookup_filter_None. left. exact Hroot.
    + repeat split; try discriminate; auto.
  - (* a directory, removed by rmdir *)
    destruct p as [|c p']; simpl.
    + repeat split; try discriminate; auto.
    + destruct (decide (Local.empty_dir (c :: p') (Local.nodes fs))); simpl;
        repeat split; try discriminate; auto.
Qed.

Section RemoteRemove.
Context {C R : Type} {container : Container C R}.

(** X11. The remote adapter makes the remove-path call and nothing else: it
    leaves the container in the state the call left, returns exactly when
    the call succeeded and raises exactly when it failed; the recursive
    flag reaches the call as it was given. *)
Theorem remove_container_path_follows_reply (cp : ContainerPath C) (recursive : bool) (r : R) :
  let reply := Container_remove_path (_container cp) (_path cp) recursive r in
  snd (_remove_container_path cp recursive r) = snd reply /\
  (fst (_remove_container_path cp recursive r) = Return tt <-> fst reply = None) /\
  (raised (fst (_remove_container_path cp recursive r)) = true <-> fst reply <> None).
Proof.
  cbv zeta. rewrite remove_container_path_reply.
  destruct (Container_remove_path (_container cp) (_path cp) recursive r) as [[e|] r']; simpl.
  - assert (Hraised : exists x,
              (if is_generic_file_error_with "directory not empty" e
               then Raise (OSError errno.ENOTEMPTY "Directory not empty" (repr cp) (Some e))
               else
                 match e with
                 | pebble.PathError kind _ =>
                     if String.eqb kind "not-found"
                     then Raise (FileNotFoundError errno.ENOENT "No such file or directory"
                                   (repr cp) (Some e))
                     else if String.eqb kind "permission-denied"
                     then Raise (PermissionError errno.EPERM "Operation not permitted"
                                   (repr cp) (Some e))
                     else Raise (PebbleError e)
                 | _ => Raise (PebbleError e)
                 end) = (Raise x : Result unit)).
    { destruct (is_generic_file_error_with "directory not empty" e); [eauto|].
      destruct e as [kind message| | | |]; eauto.
      destruct (String.eqb kind "not-found"); [eauto|].
      destruct (String.eqb kind "permission-denied"); eauto. }
    destruct Hraised as [x ->]. simpl.
    repeat split; try discriminate; auto.
  - repeat split; try discriminate; auto.
Qed.

End RemoteRemove.

(** ** ensure_contents and remove_path together *)

(** When ensure_contents returns, reading P returns the content. *)
Lemma ensure_contents_returns_readable {P W : Type} {backend : PathProtocol P W}
    {lawful : WriteThenRead backend} path content mode user group (w w1 : W) (b : bool) :
  ensure_contents path (Bytes content) mode user group w = (Return b, w1) ->
  read_bytes path w1 = Return content.
Proof.
  rewrite ensure_contents_bytes. intros Hfirst.
  assert (Hwritten : write_contents path content mode user group w = (Return b, w1) ->
                     read_bytes path w1 = Return content).
  { intros Hw. apply write_contents_returns in Hw as (_ & w' & n & _ & Hwrite).
    exact (written_read_bytes _ _ _ _ _ _ _ _ Hwrite). }
  destruct (fileinfo path w) as [info|e] eqn:Hinfo.
  - destruct (metadata_matches info mode user group) eqn:Hmeta; [|auto].
    destruct (read_bytes path w) as [data|e] eqn:Hread; [|discriminate].
    destruct (bool_decide (data = content)) eqn:Hdata; [|auto].
    apply bool_decide_eq_true in Hdata. subst data. injection Hfirst as <- <-.
    exact Hread.
  - destruct (is_FileNotFoundError e); [auto | discriminate].
Qed.

(** X12. On the local backend, once ensure_contents(P, C, ...) has
    returned, remove_path(P), with or without recursive, returns and P no
    longer exists; a further ensure_contents(P, C, ...) then finds nothing to
    keep: it does not return False. *)
Theorem ensure_contents_then_remove_path (p : Local.path) (content : bytes) (mode : Z)
    (user group : option string) (recursive : bool) (fs fs1 : Local.FS) (b : bool) :
  ensure_contents p (Bytes content) mode user group fs = (Return b, fs1) ->
  let fs2 := Local.with_nodes fs1 (delete p (Local.nodes fs1)) in
  _remove_pathlib_path p recursive fs1 = (Return tt, fs2) /\
  Local.exists_ p fs2 = false /\
  fst (ensure_contents p (Bytes content) mode user group fs2) <> Return false.
Proof.
  intros Hfirst. cbv zeta.
  pose proof (ensure_contents_returns_readable _ _ _ _ _ _ _ _ Hfirst) as Hread.
  simpl in Hread. unfold Local.read_bytes in Hread.
  destruct (Local.stat p fs1) as [[m d|m|m]|e] eqn:Hstat; try discriminate.
  pose proof (stat_deleted _ _ _ Hstat) as Hgone.
  split; [|split].
  - unfold _remove_pathlib_path, Local.exists_, Local.is_dir, Local.unlink.
    rewrite Hstat. destruct recursive; reflexivity.
  - unfold Local.exists_. rewrite Hgone. reflexivity.
  - rewrite ensure_contents_bytes. simpl fileinfo. unfold Local.from_pathlib_path.
    rewrite Hgone. simpl.
    intros Hfalse.
    destruct (write_contents p content mode user group
                (Local.with_nodes fs1 (delete p (Local.nodes fs1)))) as [r w'] eqn:Hw.
    simpl in Hfalse. subst r. apply write_contents_returns in Hw as [[=] _].
Qed.

(** /etc/app/app.conf is written, and then removed. *)
Lemma ensure_contents_then_remove_path_witness :
  ensure_contents conf (Bytes hello) 420 None None fs_fresh = (Return true, fs_conf 420) /\
  fst (_remove_pathlib_path conf false (fs_conf 420)) = Return tt /\
  Local.exists_ conf (snd (_remove_pathlib_path conf false (fs_conf 420))) = false.
Proof.
  assert (Hfirst : ensure_contents conf (Bytes hello) 420 None None fs_fresh
                   = (Return true, fs_conf 420)) by (vm_compute; reflexivity).
  split; [exact Hfirst|].
  destruct (ensure_contents_then_remove_path conf hello 420 None None false
              fs_fresh (fs_conf 420) true Hfirst) as (Hremove & Hgone & _).
  rewrite Hremove. split; [reflexivity | exact Hgone].
Defined.

(** ** get-packages.py *)

Section GetPackages.

Import get_packages.

Lemma string_le_trans : Transitive string_le.
Proof.
  unfold string_le, String.leb. intros a. induction a as [|x a IH]; intros b c.
  - destruct c; simpl; [destruct b|]; auto.
  - destruct b as [|y b]; [discriminate|]. destruct c as [|z c]; [simpl; auto|].
    simpl. unfold Ascii.compare.
    destruct (N.compare_spec (N_of_ascii x) (N_of_ascii y)) as [Hxy|Hxy|Hxy];
      destruct (N.compare_spec (N_of_ascii y) (N_of_ascii z)) as [Hyz|Hyz|Hyz];
      destruct (N.compare_spec (N_of_ascii x) (N_of_ascii z)) as [Hxz|Hxz|Hxz];
      try discriminate; try lia; auto.
    apply IH.
Qed.

Lemma string_le_total : Total string_le.
Proof. intros a b. apply String.leb_total. Qed.

Lemma elem_of_sorted (x : string) (l : list string) : x ∈ sorted l <-> x ∈ l.
Proof. unfold sorted. rewrite merge_sort_Permutation. reflexivity. Qed.

Lemma sorted_strongly (l : list string) : StronglySorted string_le (sorted l).
Proof.
  apply StronglySorted_merge_sort; [apply string_le_trans | apply string_le_total].
Qed.

Lemma sorted_NoDup (l : list string) : NoDup l -> NoDup (sorted l).
Proof. unfold sorted. rewrite merge_sort_Permutation. auto. Qed.

Lemma is_dir_true (entries : list (string * bool)) (name : string) :
  is_dir entries name = true <-> (name, true) ∈ entries.
Proof.
  unfold is_dir. rewrite existsb_exists. split.
  - intros ([n d] & Hin & Hmatch). simpl in Hmatch.
    apply andb_true_iff in Hmatch as [Hname ->]. apply String.eqb_eq in Hname. subst n.
    apply list_elem_of_In. exact Hin.
  - intros Hin. exists (name, true). split; [apply list_elem_of_In; exact Hin|].
    simpl. rewrite String.eqb_refl. reflexivity.
Qed.

(** The packages: the directories named _charmlibs or starting with a
    lowercase letter. *)
Lemma elem_of_all_packages (entries : list (string * bool)) (p : string) :
  p ∈ all_packages entries <->
  (p, true) ∈ entries /\ (p = "_charmlibs" \/ starts_lower p = true).
Proof.
  unfold all_packages. cbv zeta. rewrite elem_of_sorted, list_elem_of_fmap. split.
  - intros ([n d] & -> & Hin). apply list_elem_of_filter in Hin as [Hdir Hin].
    simpl in Hdir. subst d. simpl.
    apply elem_of_cons in Hin as [[= -> Hdir] | Hin].
    + symmetry in Hdir. apply is_dir_true in Hdir. auto.
    + apply list_elem_of_filter in Hin as [Hlower Hin]. auto.
  - intros [Hin [-> | Hlower]].
    + exists ("_charmlibs", true). split; [reflexivity|].
      apply list_elem_of_filter. split; [reflexivity|].
      apply is_dir_true in Hin. rewrite Hin. left.
    + exists (p, true). split; [reflexivity|].
      apply list_elem_of_filter. split; [reflexivity|]. right.
      apply list_elem_of_filter. auto.
Qed.

Lemma free_of_cons (sep c : ascii) (p : string) :
  free_of sep (String c p) <-> c <> sep /\ free_of sep p.
Proof.
  unfold free_of. split.
  - intros Hfree. split.
    + intros ->. apply (Hfree "" p). reflexivity.
    + intros before after ->. apply (Hfree (String c before) after). reflexivity.
  - intros [Hc Hfree] [|b before] after.
    + rewrite append_nil. intros [= -> _]. contradiction.
    + rewrite append_cons. intros [= _ ->]. exact (Hfree before after eq_refl).
Qed.

Lemma free_of_empty (sep : ascii) : free_of sep "".
Proof. intros [|b before] after; discriminate. Qed.

Lemma split_not_nil (sep : ascii) (s : string) : split sep s <> [].
Proof.
  destruct s as [|c s]; simpl; [discriminate|].
  destruct (Ascii.eqb c sep); [discriminate|]. destruct (split sep s); discriminate.
Qed.

(** What [s.split(sep)[0]] is: the part of [s] before the first [sep]. *)
Lemma first_component (sep : ascii) (line p : string) :
  hd "" (split sep line) = p <->
  free_of sep p /\ (line = p \/ exists rest, line = p +:+ String sep rest).
Proof.
  revert p. induction line as [|c line IH]; intros p; simpl.
  - split.
    + intros <-. split; [apply free_of_empty | left; reflexivity].
    + intros [Hfree [<- | [rest Heq]]]; [reflexivity|].
      destruct p; [rewrite append_nil in Heq | rewrite append_cons in Heq]; discriminate.
  - destruct (Ascii.eqb_spec c sep) as [->|Hc]; simpl.
    + split.
      * intros <-. split; [apply free_of_empty | right; exists line; reflexivity].
      * intros [Hfree Hline]. destruct p as [|c' p]; [reflexivity|].
        apply free_of_cons in Hfree as [Hc' _]. exfalso.
        destruct Hline as [[= -> _] | [rest Heq]]; [contradiction|].
        rewrite append_cons in Heq. injection Heq as -> _. contradiction.
    + destruct (split sep line) as [|first others] eqn:Hsplit;
        [exfalso; exact (split_not_nil _ _ Hsplit)|].
      simpl in *. split.
      * intros <-. destruct (proj1 (IH first) eq_refl) as [Hfree Hline].
        split; [apply free_of_cons; auto|].
        destruct Hline as [-> | [rest ->]]; [left; reflexivity | right; exists rest; reflexivity].
      * intros [Hfree Hline]. destruct p as [|c' p].
        -- exfalso. destruct Hline as [[=] | [rest Heq]].
           rewrite append_nil in Heq. injection Heq as -> _. contradiction.
        -- apply free_of_cons in Hfree as [_ Hfree]. f_equal.
           ++ destruct Hline as [[= -> _] | [rest Heq]]; [reflexivity|].
              rewrite append_cons in Heq. injection Heq as -> _. reflexivity.
           ++ apply IH. split; [exact Hfree|].
              destruct Hline as [[= _ ->] | [rest Heq]]; [left; reflexivity|].
              rewrite append_cons in Heq. injection Heq as _ ->. right. eauto.
Qed.

Lemma elem_of_changes_in (diff : string) (among : list string) (x : string) :
  x ∈ sorted (elements ((list_to_set (changed_components diff) : gset string)
                         ∩ list_to_set among))
  <-> x ∈ changed_components diff /\ x ∈ among.
Proof.
  rewrite elem_of_sorted, elem_of_elements, elem_of_intersection, !elem_of_list_to_set.
  reflexivity.
Qed.

(** With a base ref and a diff, the result depends on whether a global file
    is among the first components of the changed paths. *)
Lemma get_changed_packages_with_ref (entries : list (string * bool))
    (check_output : list string -> option string) (ref diff : string) :
  ref <> "" ->
  check_output (diff_command ref) = Some diff ->
  _get_changed_packages entries check_output ref =
  match sorted (elements ((list_to_set (changed_components diff) : gset string)
                           ∩ list_to_set _GLOBAL_FILES)) with
  | [] =>
      (["Using packages that are changed compared to " +:+ ref +:+ ":"],
       Some (sorted (elements ((list_to_set (changed_components diff) : gset string)
                                ∩ list_to_set (all_packages entries)))))
  | global_changes =>
      (["Using all packages because global files were changed: "
        +:+ repr_list global_changes],
       Some (all_packages entries))
  end.
Proof.
  intros Href Hdiff. unfold _get_changed_packages.
  destruct (String.eqb_spec ref "") as [|_]; [contradiction|].
  fold (diff_command ref). rewrite Hdiff. reflexivity.
Qed.

(** X13. With a base ref, a diff that git returns and no changed path whose
    first component is a global file, _get_changed_packages returns exactly
    the packages P such that some line of the diff is P or starts with P/:
    a package is selected by a change below it, and by nothing else. *)
Theorem changed_packages_selected (entries : list (string * bool))
    (check_output : list string -> option string) (ref diff : string) :
  ref <> "" ->
  check_output (diff_command ref) = Some diff ->
  (forall line, line ∈ split newline diff -> hd "" (split "/" line) ∉ _GLOBAL_FILES) ->
  exists packages,
    _get_changed_packages entries check_output ref
    = (["Using packages that are changed compared to " +:+ ref +:+ ":"], Some packages) /\
    forall p,
      p ∈ packages <->
      p ∈ all_packages entries /\
      free_of "/" p /\
      exists line,
        line ∈ split newline diff /\ (line = p \/ exists rest, line = p +:+ String "/" rest).
Proof.
  intros Href Hdiff Hglobal.
  rewrite (get_changed_packages_with_ref _ _ _ _ Href Hdiff).
  destruct (sorted (elements ((list_to_set (changed_components diff) : gset string)
                               ∩ list_to_set _GLOBAL_FILES))) as [|g gs] eqn:Hsorted.
  - eexists. split; [reflexivity|]. intros p.
    rewrite elem_of_changes_in. unfold changed_components. rewrite list_elem_of_fmap.
    split.
    + intros [(line & Hp & Hline) Hpackage]. symmetry in Hp.
      apply first_component in Hp as [Hfree Hshape]. eauto.
    + intros (Hpackage & Hfree & line & Hline & Hshape). split; [|exact Hpackage].
      exists line. split; [|exact Hline]. symmetry. apply first_component. auto.
  - exfalso. assert (Hg : g ∈ g :: gs) by left. rewrite <- Hsorted in Hg.
    apply elem_of_changes_in in Hg as [Hchanged Hg].
    unfold changed_components in Hchanged.
    apply list_elem_of_fmap in Hchanged as (line & -> & Hline). exact (Hglobal line Hline Hg).
Qed.

(** In the checkout, a diff that touches pathops, docs and README.md selects
    docs and pathops: README.md is no package and interfaces has no change. *)
Lemma changed_packages_selected_witness :
  exists packages,
    _get_changed_packages Checkout.entries Checkout.check_output "main"
    = (["Using packages that are changed compared to main:"], Some packages) /\
    "pathops" ∈ packages /\ ("README.md" ∉ packages) /\ ("interfaces" ∉ packages).
Proof.
  assert (Hglobal : forall line,
             line ∈ split newline Checkout.diff -> hd "" (split "/" line) ∉ _GLOBAL_FILES).
  { apply Forall_forall. apply (bool_decide_unpack _). vm_compute. exact I. }
  destruct (changed_packages_selected Checkout.entries Checkout.check_output "main"
              Checkout.diff ltac:(discriminate) eq_refl Hglobal)
    as (packages & Hrun & Hselected).
  exists packages. split; [exact Hrun|]. split; [|split].
  - apply Hselected. split; [|split].
    + apply elem_of_all_packages. split; [|right; reflexivity].
      apply (bool_decide_unpack _). vm_compute. exact I.
    + repeat (apply free_of_cons; split; [discriminate|]). apply free_of_empty.
    + exists "pathops/src/charmlibs/pathops/_functions.py". split.
      * apply (bool_decide_unpack _). vm_compute. exact I.
      * right. eexists. reflexivity.
  - intros Hin. apply Hselected in Hin as [Hpackage _].
    apply elem_of_all_packages in Hpackage as [_ [Hname | Hlower]]; discriminate.
  - intros Hin. apply Hselected in Hin as (_ & _ & line & Hline & Hshape).
    revert line Hline Hshape.
    apply (proj1 (Forall_forall
                    (fun line => ~ (line = "interfaces" \/
                                    exists rest, line = "interfaces" +:+ String "/" rest))
                    (split newline Checkout.diff))).
    let lines := eval vm_compute in (split newline Checkout.diff) in
    change (split newline Checkout.diff) with lines.
    repeat constructor; intros [Heq | [rest Heq]]; vm_compute in Heq; discriminate.
Defined.


(** X15. Whatever _get_changed_packages returns is sorted, holds only
    directories of the project root that are named _charmlibs or start with
    a lowercase letter, and holds none of them twice. *)
Theorem changed_packages_are_packages (entries : list (string * bool))
    (check_output : list string -> option string) (ref : string)
    (printed packages : list string) :
  _get_changed_packages entries check_output ref = (printed, Some packages) ->
  StronglySorted string_le packages /\
  (forall p, p ∈ packages ->
     (p, true) ∈ entries /\ (p = "_charmlibs" \/ starts_lower p = true)) /\
  (NoDup (map fst entries) -> NoDup packages).
Proof.
  intros Hrun.
  assert (Hall : NoDup (map fst entries) -> NoDup (all_packages entries)).
  { intros Hnodup. unfold all_packages. cbv zeta. apply sorted_NoDup.
    assert (Hglob : NoDup (map fst (filter (fun e : string * bool => snd e = true)
                                      (glob_lower entries)))).
    { eapply sublist_NoDup; [exact Hnodup|]. apply fmap_sublist.
      etransitivity; [apply sublist_filter | apply sublist_filter]. }
    simpl. destruct (is_dir entries "_charmlibs"); [|exact Hglob].
    rewrite filter_cons_True by reflexivity. simpl. constructor; [|exact Hglob].
    intros Hin. apply list_elem_of_fmap in Hin as ([n d] & Hn & Hin). simpl in Hn. subst n.
    apply list_elem_of_filter in Hin as [_ Hin].
    apply list_elem_of_filter in Hin as [Hlower _]. discriminate. }
  assert (Hcases : packages = all_packages entries \/
                   exists diff, packages
                     = sorted (elements ((list_to_set (changed_components diff) : gset string)
                                          ∩ list_to_set (all_packages entries)))).
  { unfold _get_changed_packages in Hrun.
    destruct (String.eqb ref ""); [injection Hrun as _ <-; left; reflexivity|].
    destruct (check_output _) as [diff|]; [|discriminate].
    fold (changed_components diff) in Hrun.
    destruct (sorted (elements (_ ∩ list_to_set _GLOBAL_FILES)));
      injection Hrun as _ <-; [right; exists diff; reflexivity | left; reflexivity]. }
  destruct Hcases as [-> | [diff ->]].
  - split; [apply sorted_strongly|]. split; [|exact Hall].
    intros p Hp. apply elem_of_all_packages. exact Hp.
  - split; [apply sorted_strongly|]. split.
    + intros p Hp. apply elem_of_changes_in in Hp as [_ Hp].
      apply elem_of_all_packages. exact Hp.
    + intros _. apply sorted_NoDup, NoDup_elements.
Qed.

(** In the checkout the result against origin/main is docs, pathops. *)
Lemma changed_packages_are_packages_witness :
  _get_changed_packages Checkout.entries Checkout.check_output "main"
  = (["Using packages that are changed compared to main:"], Some ["docs"; "pathops"]) /\
  StronglySorted string_le ["docs"; "pathops"] /\
  NoDup ["docs"; "pathops"].
Proof.
  assert (Hrun : _get_changed_packages Checkout.entries Checkout.check_output "main"
                 = (["Using packages that are changed compared to main:"],
                    Some ["docs"; "pathops"])) by (vm_compute; reflexivity).
  destruct (changed_packages_are_packages _ _ _ _ _ Hrun) as (Hsorted & _ & Hnodup).
  split; [exact Hrun|]. split; [exact Hsorted|].
  apply Hnodup. apply (bool_decide_unpack _). vm_compute. exact I.
Defined.

End GetPackages.
